(** * DHT11 single-wire driver (sensor.c): shallow embedding and properties

    The driver talks to the sensor through three hardware interfaces:
    the GPIO pin (furi_hal_gpio_read), the DWT cycle counter
    (DWT->CYCCNT) and a handful of output calls (gpio init/write, delays,
    critical section, notifications).  The two inputs are modelled as
    oracles indexed by the number of reads made so far, so a theorem
    quantified over all boards covers every behaviour of the line and of
    the counter.  Output calls are recorded in call order.

    [app->temperature] and [app->humidity] are C floats, but the driver
    only ever stores values converted from a uint8_t, or the negation of a
    7-bit value: integers in [-127, 255], all exactly representable, and
    only ever compared with the integer constants 100, 60 and -40.  They
    are therefore carried as [Z]. *)

From Stdlib Require Import ZArith List String Ascii Bool Lia.
Import ListNotations.
Open Scope Z_scope.

(** ** Hardware interface *)

Inductive GpioMode := GpioModeOutputPushPull | GpioModeInput.
Inductive GpioPull := GpioPullNo | GpioPullUp.
Inductive NotificationSequence := sequence_blink_start_blue | sequence_blink_stop.

Inductive HalCall :=
| Hal_gpio_init (m : GpioMode) (p : GpioPull)
| Hal_gpio_write (level : bool)
| Hal_delay_ms (n : Z)
| Hal_delay_us (n : Z)
| Hal_critical_enter
| Hal_critical_exit
| Hal_notification (s : NotificationSequence).

(** [pin_level k] is the level returned by the k-th furi_hal_gpio_read,
    [cyccnt k] the value returned by the k-th read of DWT->CYCCNT.
    [pulses] is a history variable: the pulse_duration_us computed for
    each data bit so far, oldest first. *)
Record Board := mkBoard {
  pin_level : nat -> bool;
  cyccnt : nat -> Z;
  pin_reads : nat;
  cyc_reads : nat;
  cyccntena : bool;
  hal_calls : list HalCall;
  pulses : list Z
}.

Definition furi_hal_gpio_read (b : Board) : bool * Board :=
  (pin_level b (pin_reads b),
   mkBoard (pin_level b) (cyccnt b) (S (pin_reads b)) (cyc_reads b)
           (cyccntena b) (hal_calls b) (pulses b)).

Definition uint32 (x : Z) : Z := x mod 2 ^ 32.
Definition uint8 (x : Z) : Z := x mod 2 ^ 8.

Definition DWT_CYCCNT (b : Board) : Z * Board :=
  (uint32 (cyccnt b (cyc_reads b)),
   mkBoard (pin_level b) (cyccnt b) (pin_reads b) (S (cyc_reads b))
           (cyccntena b) (hal_calls b) (pulses b)).

Definition hal (c : HalCall) (b : Board) : Board :=
  mkBoard (pin_level b) (cyccnt b) (pin_reads b) (cyc_reads b)
          (cyccntena b) (hal_calls b ++ [c]) (pulses b).

(** if(!(DWT->CTRL & DWT_CTRL_CYCCNTENA_Msk)) DWT->CTRL |= DWT_CTRL_CYCCNTENA_Msk; *)
Definition dwt_enable (b : Board) : Board :=
  if negb (cyccntena b)
  then mkBoard (pin_level b) (cyccnt b) (pin_reads b) (cyc_reads b)
               true (hal_calls b) (pulses b)
  else b.

Definition note_pulse (d : Z) (b : Board) : Board :=
  mkBoard (pin_level b) (cyccnt b) (pin_reads b) (cyc_reads b)
          (cyccntena b) (hal_calls b) (pulses b ++ [d]).

(** The polling loop shared by every handshake phase and bit start:
<<
    while(<pin == level> && timeout < 200) { furi_delay_us(1); timeout++; }
>>
    The pin is sampled before the bound is tested, as [&&] evaluates left
    to right.  [n] only bounds the recursion; started at 200 with
    [timeout = 0] it is never exhausted (see [wait_loop_exit]). *)
Fixpoint wait_loop (level : bool) (n : nat) (timeout : Z) (b : Board) : Z * Board :=
  let (v, b1) := furi_hal_gpio_read b in
  if Bool.eqb v level && (timeout <? 200) then
    match n with
    | O => (timeout, b1)
    | S n' => wait_loop level n' (uint32 (timeout + 1)) (hal (Hal_delay_us 1) b1)
    end
  else (timeout, b1).

(** The duration measurement loop:
<<
    while(furi_hal_gpio_read(DHT11_PIN)) {
        uint32_t elapsed_cycles = DWT->CYCCNT - start_cycles;
        uint32_t elapsed_us = elapsed_cycles / 64;
        if(elapsed_us > 200) break;
    }
>>
    It has no bound of its own: with the pin stuck high and a counter that
    does not advance it spins for ever, hence the fuel. *)
Fixpoint measure_loop (fuel : nat) (start_cycles : Z) (b : Board) : option Board :=
  match fuel with
  | O => None
  | S fuel' =>
      let (v, b1) := furi_hal_gpio_read b in
      if v then
        let (c, b2) := DWT_CYCCNT b1 in
        let elapsed_cycles := uint32 (c - start_cycles) in
        let elapsed_us := elapsed_cycles / 64 in
        if elapsed_us >? 200 then Some b2 else measure_loop fuel' start_cycles b2
      else Some b1
  end.

(** ** Application state *)

(** The sensor-related fields of [DHT11App] (app.h).  [debug_log] is the
    text held by the 2048-byte buffer, up to its terminating NUL. *)
Record DHT11App := mkApp {
  temperature : Z;
  humidity : Z;
  sensor_ok : bool;
  debug_log : string
}.

Definition DEBUG_LOG_SIZE : Z := 2048.
Definition TEMP_MSG_SIZE : Z := 128.

(** The local [log_pos] of the debug read, with two history variables:
    the entries handed to snprintf for the log, and the offset
    [log_pos] at which each of those calls was made. *)
Record Trace := mkTrace {
  log_pos : Z;
  log_entries : list string;
  log_offsets : list Z
}.

Record St := mkSt { board : Board; app : DHT11App; trace : Trace }.

(** ** Control flow: a state monad with early return *)

(** The [return] statements of the two read functions, named after the
    failure they report. *)
Inductive Site :=
| NoResponse
| InvalidResponseTiming
| ResponseTooLong
| BitTimeout (index : Z)
| ChecksumMismatch
| OutOfRange
| Complete.

Inductive result (A : Type) :=
| Continue (a : A) (s : St)
| Returned (value : bool) (site : Site) (s : St)
| OutOfFuel.
Arguments Continue {A} a s.
Arguments Returned {A} value site s.
Arguments OutOfFuel {A}.

Definition M (A : Type) := St -> result A.

Definition ret {A} (a : A) : M A := fun s => Continue a s.

Definition bind {A B} (m : M A) (f : A -> M B) : M B :=
  fun s => match m s with
           | Continue a s' => f a s'
           | Returned v site s' => Returned v site s'
           | OutOfFuel => OutOfFuel
           end.

Definition return_ {A} (v : bool) (site : Site) : M A :=
  fun s => Returned v site s.

Notation "x <- m ;; k" := (bind m (fun x => k))
  (at level 61, m at next level, right associativity).
Notation "m ;; k" := (bind m (fun _ => k))
  (at level 61, right associativity).

Definition on_board {A} (f : Board -> A * Board) : M A :=
  fun s => let (a, b) := f (board s) in Continue a (mkSt b (app s) (trace s)).

Definition call (c : HalCall) : M unit := on_board (fun b => (tt, hal c b)).

Definition notification_message (q : NotificationSequence) : M unit :=
  call (Hal_notification q).
Definition furi_hal_gpio_init (m : GpioMode) (p : GpioPull) : M unit :=
  call (Hal_gpio_init m p).
Definition furi_hal_gpio_write (level : bool) : M unit := call (Hal_gpio_write level).
Definition furi_delay_ms (n : Z) : M unit := call (Hal_delay_ms n).
Definition furi_delay_us (n : Z) : M unit := call (Hal_delay_us n).
Definition FURI_CRITICAL_ENTER : M unit := call Hal_critical_enter.
Definition FURI_CRITICAL_EXIT : M unit := call Hal_critical_exit.

(** timeout = 0; while(<pin == level> && timeout < 200) {...} *)
Definition wait_while (level : bool) : M Z := on_board (wait_loop level 200 0).

Definition measure_high (fuel : nat) (start_cycles : Z) : M unit :=
  fun s => match measure_loop fuel start_cycles (board s) with
           | Some b => Continue tt (mkSt b (app s) (trace s))
           | None => OutOfFuel
           end.

Definition store_temperature (t : Z) (s : St) : St :=
  mkSt (board s)
       (mkApp t (humidity (app s)) (sensor_ok (app s)) (debug_log (app s)))
       (trace s).

Definition store_humidity (h : Z) (s : St) : St :=
  mkSt (board s)
       (mkApp (temperature (app s)) h (sensor_ok (app s)) (debug_log (app s)))
       (trace s).

(** app->temperature = t; *)
Definition set_temperature (t : Z) : M unit :=
  fun s => Continue tt (store_temperature t s).

(** app->humidity = h; *)
Definition set_humidity (h : Z) : M unit :=
  fun s => Continue tt (store_humidity h s).

Definition get_temperature : M Z := fun s => Continue (temperature (app s)) s.
Definition get_humidity : M Z := fun s => Continue (humidity (app s)) s.

(** ** The frame buffer [uint8_t data[5]] *)

Fixpoint set_nth (l : list Z) (n : nat) (v : Z) : list Z :=
  match l, n with
  | [], _ => []
  | _ :: t, O => v :: t
  | h :: t, S n' => h :: set_nth t n' v
  end.

Definition byte_at (data : list Z) (idx : Z) : Z := nth (Z.to_nat idx) data 0.

(** data[byte_idx] |= (1 << bit_idx); *)
Definition or_assign (data : list Z) (byte_idx bit_idx : Z) : list Z :=
  set_nth data (Z.to_nat byte_idx)
          (uint8 (Z.lor (byte_at data byte_idx) (Z.shiftl 1 bit_idx))).

Definition bit_indices : list Z := map Z.of_nat (seq 0 40).

(** ** dht11_sensor_read *)

(** One iteration of [for(int i = 0; i < 40; i++)], sensor.c lines 86-121.
    [i / 8] and [i % 8] are C's truncating operators on [int]. *)
Definition read_bit (fuel : nat) (i : Z) (data : list Z) : M (list Z) :=
  timeout <- wait_while false ;;
  if timeout >=? 200 then
    FURI_CRITICAL_EXIT ;;
    notification_message sequence_blink_stop ;;
    return_ false (BitTimeout i)
  else
    on_board (fun b => (tt, dwt_enable b)) ;;
    start_cycles <- on_board DWT_CYCCNT ;;
    measure_high fuel start_cycles ;;
    end_cycles <- on_board DWT_CYCCNT ;;
    let pulse_duration_us := uint32 (end_cycles - start_cycles) / 64 in
    on_board (fun b => (tt, note_pulse pulse_duration_us b)) ;;
    if pulse_duration_us >? 40 then
      let byte_idx := uint8 (Z.quot i 8) in
      let bit_idx := uint8 (7 - Z.rem i 8) in
      ret (or_assign data byte_idx bit_idx)
    else ret data.

Fixpoint read_bits (fuel : nat) (idx : list Z) (data : list Z) : M (list Z) :=
  match idx with
  | [] => ret data
  | i :: rest => data' <- read_bit fuel i data ;; read_bits fuel rest data'
  end.

(** sensor.c lines 25-124: start signal, handshake and the 40 data bits. *)
Definition sensor_read_frame (fuel : nat) : M (list Z) :=
  let data := [0; 0; 0; 0; 0] in
  notification_message sequence_blink_start_blue ;;
  furi_hal_gpio_init GpioModeOutputPushPull GpioPullNo ;;
  furi_hal_gpio_write false ;;
  furi_delay_ms 20 ;;
  FURI_CRITICAL_ENTER ;;
  furi_hal_gpio_write true ;;
  furi_delay_us 30 ;;
  furi_hal_gpio_init GpioModeInput GpioPullUp ;;
  timeout <- wait_while true ;;
  if timeout >=? 200 then
    FURI_CRITICAL_EXIT ;;
    notification_message sequence_blink_stop ;;
    return_ false NoResponse
  else
  timeout <- wait_while false ;;
  if timeout >=? 200 then
    FURI_CRITICAL_EXIT ;;
    notification_message sequence_blink_stop ;;
    return_ false InvalidResponseTiming
  else
  timeout <- wait_while true ;;
  if timeout >=? 200 then
    FURI_CRITICAL_EXIT ;;
    notification_message sequence_blink_stop ;;
    return_ false ResponseTooLong
  else
  data <- read_bits fuel bit_indices data ;;
  FURI_CRITICAL_EXIT ;;
  ret data.

(** The condition of the range check, identical at lines 145 and 344:
    humidity > 100.0f || temperature > 60.0f || temperature < -40.0f *)
Definition out_of_range (h t : Z) : bool :=
  (h >? 100) || (t >? 60) || (t <? -40).

(** sensor.c lines 126-153: checksum, conversion and range check. *)
Definition sensor_read_validate (data : list Z) : M unit :=
  let checksum :=
    uint8 (byte_at data 0 + byte_at data 1 + byte_at data 2 + byte_at data 3) in
  if negb (checksum =? byte_at data 4) then
    notification_message sequence_blink_stop ;;
    return_ false ChecksumMismatch
  else
  set_humidity (byte_at data 0) ;;
  set_temperature (byte_at data 2) ;;
  (if negb (Z.land (byte_at data 2) 128 =? 0)
   then set_temperature (- (Z.land (byte_at data 2) 127))
   else ret tt) ;;
  h <- get_humidity ;;
  t <- get_temperature ;;
  if out_of_range h t then
    notification_message sequence_blink_stop ;;
    return_ false OutOfRange
  else
  notification_message sequence_blink_stop ;;
  return_ true Complete.

Definition dht11_sensor_read (fuel : nat) : M unit :=
  data <- sensor_read_frame fuel ;;
  sensor_read_validate data.

(** ** Text formatting used by the debug log *)

Definition nl : string := String (ascii_of_nat 10) EmptyString.
(** The two UTF-8 bytes of the degree sign in the format of entry 16. *)
Definition degree : string :=
  String (ascii_of_nat 194) (String (ascii_of_nat 176) EmptyString).

Definition digit_char (d : Z) : ascii := ascii_of_nat (48 + Z.to_nat d).

(** Decimal digits of a non-negative number, most significant first. *)
Fixpoint digits (fuel : nat) (n : Z) (acc : string) : string :=
  let acc' := String (digit_char (n mod 10)) acc in
  match fuel with
  | O => acc'
  | S fuel' => if n / 10 =? 0 then acc' else digits fuel' (n / 10) acc'
  end.

(** printf's %lu on a 32-bit unsigned long (at most 10 digits) *)
Definition fmt_lu (n : Z) : string := digits 9 n EmptyString.

(** printf's %d *)
Definition fmt_d (n : Z) : string :=
  if n <? 0 then ("-" ++ fmt_lu (- n))%string else fmt_lu n.

Definition hex_char (d : Z) : ascii :=
  if d <? 10 then ascii_of_nat (48 + Z.to_nat d) else ascii_of_nat (55 + Z.to_nat d).

(** printf's %02X on a promoted uint8_t *)
Definition fmt_02X (n : Z) : string :=
  String (hex_char (n / 16)) (String (hex_char (n mod 16)) EmptyString).

(** printf's %.1f on a float holding an integer value *)
Definition fmt_1f (n : Z) : string := (fmt_d n ++ ".0")%string.

(** The first [n] characters of [s]. *)
Fixpoint truncate (n : Z) (s : string) : string :=
  match s with
  | EmptyString => EmptyString
  | String c s' => if n <=? 0 then EmptyString else String c (truncate (n - 1) s')
  end.

(** snprintf(buf, size, ...) where the formatted text is [s]: the characters
    stored in [buf] before the NUL, and the returned count (the length of
    [s], whether or not it fitted). *)
Definition snprintf (size : Z) (s : string) : string * Z :=
  (if size =? 0 then EmptyString else truncate (size - 1) s,
   Z.of_nat (String.length s)).

(** snprintf(temp_msg, sizeof(temp_msg), ...): the text left in temp_msg *)
Definition temp_msg (s : string) : string := fst (snprintf TEMP_MSG_SIZE s).

(** app->debug_log[0] = 0; size_t log_pos = 0; *)
Definition log_clear : M unit :=
  fun s => Continue tt
    (mkSt (board s)
          (mkApp (temperature (app s)) (humidity (app s)) (sensor_ok (app s))
                 EmptyString)
          (mkTrace 0 [] [])).

(** log_pos += snprintf(app->debug_log + log_pos,
                        sizeof(app->debug_log) - log_pos, ...);
    [size_t] is 32 bits wide on the target, so the size argument wraps
    when [log_pos] exceeds the buffer size; the destination then lies
    outside the array and the buffer model is left as it was.  As long as
    no call has been cut short, [log_pos] is the length of the text and
    the new entry lands at its end (see [log_ok]).  The offset of every
    call is kept in [log_offsets]. *)
Definition log_state (s : string) (st : St) : St :=
  let pos := log_pos (trace st) in
  let size := uint32 (DEBUG_LOG_SIZE - pos) in
  let buf := if pos <=? DEBUG_LOG_SIZE
             then (debug_log (app st) ++ fst (snprintf size s))%string
             else debug_log (app st) in
  mkSt (board st)
       (mkApp (temperature (app st)) (humidity (app st)) (sensor_ok (app st)) buf)
       (mkTrace (uint32 (pos + snd (snprintf size s)))
                (log_entries (trace st) ++ [s])
                (log_offsets (trace st) ++ [pos])).

Definition log_append (s : string) : M unit :=
  fun st => Continue tt (log_state s st).

(** An entry formatted into temp_msg first, then copied with "%s". *)
Definition log_msg (s : string) : M unit := log_append (temp_msg s).

Definition line (s : string) : string := (s ++ nl)%string.

(** ** dht11_sensor_debug_read *)

Definition bit_entry_th (i d : Z) (bit_value : bool) : string :=
  line ("Bit " ++ fmt_d i ++ ": " ++ fmt_lu d ++ "ms = "
        ++ fmt_d (if bit_value then 1 else 0) ++ " (th:40)").

Definition bit_entry (i d : Z) (bit_value : bool) : string :=
  line ("Bit " ++ fmt_d i ++ ": " ++ fmt_lu d ++ "ms = "
        ++ fmt_d (if bit_value then 1 else 0)).

(** One iteration of the data loop of the debug read, lines 253-302. *)
Definition debug_read_bit (fuel : nat) (i : Z) (acc : list Z * Z) : M (list Z * Z) :=
  let (data, bits_read) := acc in
  timeout <- wait_while false ;;
  if timeout >=? 200 then
    FURI_CRITICAL_EXIT ;;
    notification_message sequence_blink_stop ;;
    log_msg (line ("ERROR: Bit " ++ fmt_d i ++ " start timeout")) ;;
    return_ false (BitTimeout i)
  else
    on_board (fun b => (tt, dwt_enable b)) ;;
    start_cycles <- on_board DWT_CYCCNT ;;
    measure_high fuel start_cycles ;;
    end_cycles <- on_board DWT_CYCCNT ;;
    let pulse_duration_us := uint32 (end_cycles - start_cycles) / 64 in
    on_board (fun b => (tt, note_pulse pulse_duration_us b)) ;;
    let bit_value := pulse_duration_us >? 40 in
    let data :=
      if bit_value then
        let byte_idx := uint8 (Z.quot i 8) in
        let bit_idx := uint8 (7 - Z.rem i 8) in
        or_assign data byte_idx bit_idx
      else data in
    let bits_read := uint8 (bits_read + 1) in
    (if i <? 16 then log_msg (bit_entry_th i pulse_duration_us bit_value)
     else if Z.rem i 8 =? 7 then log_msg (bit_entry i pulse_duration_us bit_value)
     else ret tt) ;;
    ret (data, bits_read).

Fixpoint debug_read_bits (fuel : nat) (idx : list Z) (acc : list Z * Z)
  : M (list Z * Z) :=
  match idx with
  | [] => ret acc
  | i :: rest => acc' <- debug_read_bit fuel i acc ;; debug_read_bits fuel rest acc'
  end.

(** sensor.c lines 158-321: as [sensor_read_frame], with logging. *)
Definition debug_read_frame (fuel : nat) : M (list Z) :=
  let data := [0; 0; 0; 0; 0] in
  log_clear ;;
  log_append (line "=== DHT11 Debug Log ===") ;;
  log_append (line (line "Pin: C0 (GPIO 16)")) ;;
  notification_message sequence_blink_start_blue ;;
  log_append (line "1. LED: Blue flash started") ;;
  level <- on_board furi_hal_gpio_read ;;
  log_msg (line ("2. Initial pin state: " ++ (if level : bool then "HIGH" else "LOW"))) ;;
  furi_hal_gpio_init GpioModeOutputPushPull GpioPullNo ;;
  furi_hal_gpio_write false ;;
  log_append (line "3. Start signal: Pin LOW for 20ms") ;;
  furi_delay_ms 20 ;;
  FURI_CRITICAL_ENTER ;;
  log_append (line "4. Critical section: Interrupts disabled") ;;
  furi_hal_gpio_write true ;;
  furi_delay_us 30 ;;
  log_append (line "5. Release signal: Pin HIGH for 30us") ;;
  furi_hal_gpio_init GpioModeInput GpioPullUp ;;
  log_append (line "6. Input mode: Pull-up enabled") ;;
  timeout <- wait_while true ;;
  log_msg (line ("7. Wait for LOW: " ++ fmt_lu timeout ++ "ms timeout="
                 ++ fmt_d (if timeout >=? 200 then 1 else 0))) ;;
  if timeout >=? 200 then
    FURI_CRITICAL_EXIT ;;
    notification_message sequence_blink_stop ;;
    log_append (line "ERROR: No response from DHT11") ;;
    log_append (line "Check: VCC->3.3V, GND->GND, DATA->C0") ;;
    return_ false NoResponse
  else
  timeout <- wait_while false ;;
  log_msg (line ("8. Response LOW: " ++ fmt_lu timeout ++ "ms")) ;;
  if timeout >=? 200 then
    FURI_CRITICAL_EXIT ;;
    notification_message sequence_blink_stop ;;
    log_append (line "ERROR: Invalid response timing") ;;
    return_ false InvalidResponseTiming
  else
  timeout <- wait_while true ;;
  log_msg (line ("9. Response HIGH: " ++ fmt_lu timeout ++ "ms")) ;;
  if timeout >=? 200 then
    FURI_CRITICAL_EXIT ;;
    notification_message sequence_blink_stop ;;
    log_append (line "ERROR: Response too long") ;;
    return_ false ResponseTooLong
  else
  log_append (line "10. Data transmission started") ;;
  acc <- debug_read_bits fuel bit_indices (data, 0) ;;
  let (data, bits_read) := acc : list Z * Z in
  FURI_CRITICAL_EXIT ;;
  log_append (line "11. Critical section: Interrupts enabled") ;;
  log_msg (line ("12. Bits read: " ++ fmt_d bits_read ++ "/40")) ;;
  log_append (line "Timing Analysis:") ;;
  log_append (line "- Using DWT cycle counter (64MHz = 1us)") ;;
  log_append (line "- Current threshold: 40us") ;;
  log_append (line "- Expected: 0=26-28us, 1=70us") ;;
  log_append (line "- High precision cycle counting") ;;
  log_msg (line ("13. Raw data: " ++ fmt_02X (byte_at data 0) ++ " "
                 ++ fmt_02X (byte_at data 1) ++ " " ++ fmt_02X (byte_at data 2)
                 ++ " " ++ fmt_02X (byte_at data 3) ++ " "
                 ++ fmt_02X (byte_at data 4))) ;;
  ret data.

(** sensor.c lines 323-352: checksum, conversion and range check of the
    debug read.  The conversion stores data[2] as it is. *)
Definition debug_read_validate (data : list Z) : M unit :=
  let checksum :=
    uint8 (byte_at data 0 + byte_at data 1 + byte_at data 2 + byte_at data 3) in
  log_msg (line ("14. Checksum calc: " ++ fmt_02X checksum ++ ", received: "
                 ++ fmt_02X (byte_at data 4))) ;;
  if negb (checksum =? byte_at data 4) then
    notification_message sequence_blink_stop ;;
    log_append (line "ERROR: Checksum mismatch") ;;
    return_ false ChecksumMismatch
  else
  set_humidity (byte_at data 0) ;;
  set_temperature (byte_at data 2) ;;
  h <- get_humidity ;;
  log_msg (line ("15. Humidity: " ++ fmt_1f h ++ "%")) ;;
  t <- get_temperature ;;
  log_msg (line ("16. Temperature: " ++ fmt_1f t ++ degree ++ "C")) ;;
  if out_of_range h t then
    notification_message sequence_blink_stop ;;
    log_append (line "ERROR: Values out of range") ;;
    return_ false OutOfRange
  else
  notification_message sequence_blink_stop ;;
  log_append (line "17. SUCCESS: Read completed") ;;
  return_ true Complete.

Definition dht11_sensor_debug_read (fuel : nat) : M unit :=
  data <- debug_read_frame fuel ;;
  debug_read_validate data.

(** ** Boards used in examples *)

(** A board whose pin and counter reads follow the given lists and hold
    their last default afterwards. *)
Definition board_of (pins : list bool) (idle : bool) (cycles : list Z) : Board :=
  mkBoard (fun k => nth k pins idle) (fun k => nth k cycles 0) 0 0 false [] [].

Definition init_app : DHT11App := mkApp 0 0 false EmptyString.

Definition start (b : Board) : St := mkSt b init_app (mkTrace 0 [] []).

(** Bit [i] (0 = first on the wire) of a 5-byte frame. *)
Definition frame_bit (frame : list Z) (i : nat) : bool :=
  Z.testbit (nth (i / 8) frame 0) (Z.of_nat (7 - i mod 8)).

(** A sensor answering at once and sending [frame] with 70 us pulses for
    ones and 27 us pulses for zeros.  [lead] is the pin levels read before
    the handshake (none for the plain read, one for the debug read). *)
Definition sensor_board (lead : list bool) (frame : list Z) : Board :=
  mkBoard
    (fun k => nth k (lead ++ [false; true; false]) (Nat.odd (k - List.length lead)))
    (fun k => if Nat.even k then 0
              else if frame_bit frame (k / 2) then 64 * 70 else 64 * 27)
    0 0 false [] [].

(** Both read operations, by mode ([true] is the debug read). *)
Definition read_frame (debug : bool) : nat -> M (list Z) :=
  if debug then debug_read_frame else sensor_read_frame.
Definition read (debug : bool) : nat -> M unit :=
  if debug then dht11_sensor_debug_read else dht11_sensor_read.

(** ** Reasoning about runs *)

(** [wp m Q R s]: running [m] from [s] either continues in a state
    satisfying [Q], or returns from the C function in a state satisfying
    [R], or needs more fuel. *)
Definition wp {A} (m : M A) (Q : A -> St -> Prop) (R : bool -> Site -> St -> Prop)
  : St -> Prop :=
  fun s => match m s with
           | Continue a s' => Q a s'
           | Returned v site s' => R v site s'
           | OutOfFuel => True
           end.

Lemma wp_bind {A B} (m : M A) (f : A -> M B) Q R s :
  wp (bind m f) Q R s = wp m (fun a s' => wp (f a) Q R s') R s.
Proof. unfold wp, bind. destruct (m s); reflexivity. Qed.

Lemma wp_ret {A} (a : A) Q R s : wp (ret a) Q R s = Q a s.
Proof. reflexivity. Qed.

Lemma wp_return {A} v site (Q : A -> St -> Prop) R s :
  wp (return_ v site) Q R s = R v site s.
Proof. reflexivity. Qed.

Lemma wp_on_board {A} (f : Board -> A * Board) Q R s :
  wp (on_board f) Q R s
  = Q (fst (f (board s))) (mkSt (snd (f (board s))) (app s) (trace s)).
Proof. unfold wp, on_board. destruct (f (board s)); reflexivity. Qed.

Lemma wp_call c Q R s :
  wp (call c) Q R s = Q tt (mkSt (hal c (board s)) (app s) (trace s)).
Proof. reflexivity. Qed.

Lemma wp_measure_high fuel c (Q : unit -> St -> Prop) R s :
  (forall b, measure_loop fuel c (board s) = Some b ->
             Q tt (mkSt b (app s) (trace s))) ->
  wp (measure_high fuel c) Q R s.
Proof.
  intros H. unfold wp, measure_high.
  destruct (measure_loop fuel c (board s)); auto.
Qed.

Lemma wp_mono {A} (m : M A) (Q Q' : A -> St -> Prop) (R R' : bool -> Site -> St -> Prop) s :
  wp m Q R s ->
  (forall a s', Q a s' -> Q' a s') ->
  (forall v site s', R v site s' -> R' v site s') ->
  wp m Q' R' s.
Proof. unfold wp. destruct (m s); auto. Qed.

Lemma wp_continue {A} (m : M A) Q R s a s' :
  wp m Q R s -> m s = Continue a s' -> Q a s'.
Proof. unfold wp. intros H E. now rewrite E in H. Qed.

Lemma wp_returned {A} (m : M A) Q R s v site s' :
  wp m Q R s -> m s = Returned v site s' -> R v site s'.
Proof. unfold wp. intros H E. now rewrite E in H. Qed.

(** *** Machine integers *)

Lemma uint8_range x : 0 <= uint8 x < 256.
Proof. unfold uint8. change (2 ^ 8) with 256. apply Z.mod_pos_bound. lia. Qed.

Lemma uint32_range x : 0 <= uint32 x < 4294967296.
Proof. unfold uint32. change (2 ^ 32) with 4294967296. apply Z.mod_pos_bound. lia. Qed.

Lemma uint8_small x : 0 <= x < 256 -> uint8 x = x.
Proof. intros. unfold uint8. apply Z.mod_small. change (2 ^ 8) with 256. lia. Qed.

Lemma uint32_small x : 0 <= x < 4294967296 -> uint32 x = x.
Proof. intros. unfold uint32. apply Z.mod_small. change (2 ^ 32) with 4294967296. lia. Qed.

(** *** The polling loop *)

(** What a polling loop may change on the board: the number of pin reads
    and the delay calls it makes. *)
Record polled (b b' : Board) : Prop := {
  polled_pin : pin_level b' = pin_level b;
  polled_cyccnt : cyccnt b' = cyccnt b;
  polled_cyc_reads : cyc_reads b' = cyc_reads b;
  polled_ena : cyccntena b' = cyccntena b;
  polled_pulses : pulses b' = pulses b;
  polled_calls : exists k, hal_calls b' = hal_calls b ++ repeat (Hal_delay_us 1) k;
  polled_reads : (pin_reads b <= pin_reads b')%nat
}.

Lemma wait_loop_polled level n t b : polled b (snd (wait_loop level n t b)).
Proof.
  revert t b. induction n as [|n IH]; intros t b; simpl.
  - destruct (_ && _); simpl; constructor; simpl; auto; exists 0%nat; simpl;
      now rewrite app_nil_r.
  - destruct (_ && _); simpl.
    + destruct (IH (uint32 (t + 1))
                   (hal (Hal_delay_us 1) (snd (furi_hal_gpio_read b))))
        as [ ? ? ? ? ? [k Hk] ?].
      constructor; simpl in *; auto.
      * exists (S k). rewrite Hk. now rewrite <- app_assoc.
      * lia.
    + constructor; simpl; auto. exists 0%nat; simpl; now rewrite app_nil_r.
Qed.

Lemma wait_loop_le level n t b :
  0 <= t <= 200 -> t <= fst (wait_loop level n t b) <= 200.
Proof.
  revert t b. induction n as [|n IH]; intros t b Ht; simpl.
  - destruct (_ && _); simpl; lia.
  - destruct (Bool.eqb _ _ && (t <? 200)) eqn:E; simpl; [|lia].
    apply andb_true_iff in E. destruct E as [_ E]. apply Z.ltb_lt in E.
    rewrite uint32_small by lia.
    match goal with
    | |- context [wait_loop level n ?t' ?b'] => specialize (IH t' b')
    end.
    lia.
Qed.

(** With 200 iterations in hand the recursion bound is never the reason
    the loop stops: on exit the pin differs from [level], or the timeout
    counter has reached 200. *)
Lemma wait_loop_exit level n t b :
  0 <= t <= 200 -> 200 - t <= Z.of_nat n ->
  let r := wait_loop level n t b in
  fst r = 200 \/
  pin_level b (pin_reads (snd r) - 1) = negb level.
Proof.
  revert t b. induction n as [|n IH]; intros t b Ht Hn; simpl.
  - destruct (Bool.eqb _ _ && (t <? 200)) eqn:E; simpl.
    + left. lia.
    + apply andb_false_iff in E. destruct E as [E|E].
      * right. rewrite Nat.sub_0_r. apply eqb_false_iff in E.
        destruct (pin_level b (pin_reads b)), level; simpl; congruence.
      * left. apply Z.ltb_ge in E. lia.
  - destruct (Bool.eqb _ _ && (t <? 200)) eqn:E; simpl.
    + apply andb_true_iff in E. destruct E as [_ E]. apply Z.ltb_lt in E.
      rewrite uint32_small by lia.
      match goal with
      | |- context [wait_loop level n ?t' ?b'] =>
          destruct (IH t' b') as [H|H]; [lia | lia | now left | right]
      end.
      exact H.
    + apply andb_false_iff in E. destruct E as [E|E].
      * right. rewrite Nat.sub_0_r. apply eqb_false_iff in E.
        destruct (pin_level b (pin_reads b)), level; simpl; congruence.
      * left. apply Z.ltb_ge in E. lia.
Qed.

(** *** The frame buffer *)

Definition frame_ok (data : list Z) : Prop :=
  List.length data = 5%nat /\ Forall (fun x => 0 <= x < 256) data.

(** Bit [i] of the frame in wire order: bit [7 - i mod 8] of byte [i / 8]. *)
Definition data_bit (data : list Z) (i : Z) : bool :=
  Z.testbit (byte_at data (i / 8)) (7 - i mod 8).

Lemma set_nth_length l n v : List.length (set_nth l n v) = List.length l.
Proof.
  revert n. induction l as [|h t IH]; intros [|n]; simpl; auto.
Qed.

Lemma nth_set_nth_eq l n v :
  (n < List.length l)%nat -> nth n (set_nth l n v) 0 = v.
Proof.
  revert n. induction l as [|h t IH]; intros [|n]; simpl; intros H;
    try lia; auto. apply IH. lia.
Qed.

Lemma nth_set_nth_neq l n m v :
  n <> m -> nth m (set_nth l n v) 0 = nth m l 0.
Proof.
  revert n m. induction l as [|h t IH]; intros [|n] [|m]; simpl; intros H;
    try congruence; auto.
Qed.

Lemma set_nth_Forall (P : Z -> Prop) l n v :
  Forall P l -> P v -> Forall P (set_nth l n v).
Proof.
  intros Hl Hv. revert n. induction Hl as [|h t Hh Ht IH]; intros [|n]; simpl;
    constructor; auto.
Qed.

Lemma byte_idx_eq i : 0 <= i < 40 -> uint8 (Z.quot i 8) = i / 8.
Proof.
  intros H. rewrite Z.quot_div_nonneg by lia.
  apply uint8_small. pose proof (Z.div_pos i 8).
  assert (i / 8 < 5) by (apply Z.div_lt_upper_bound; lia). lia.
Qed.

Lemma bit_idx_eq i : 0 <= i < 40 -> uint8 (7 - Z.rem i 8) = 7 - i mod 8.
Proof.
  intros H. rewrite Z.rem_mod_nonneg by lia.
  apply uint8_small. pose proof (Z.mod_pos_bound i 8). lia.
Qed.

Lemma or_assign_ok data i :
  frame_ok data -> frame_ok (or_assign data (i / 8) (7 - i mod 8)).
Proof.
  intros [Hl Hb]. split.
  - unfold or_assign. now rewrite set_nth_length.
  - apply set_nth_Forall; auto. apply uint8_range.
Qed.

Lemma or_assign_bit data i j :
  frame_ok data -> 0 <= i < 40 -> 0 <= j < 40 ->
  data_bit (or_assign data (i / 8) (7 - i mod 8)) j
  = (j =? i) || data_bit data j.
Proof.
  intros [Hl Hb] Hi Hj. unfold data_bit, or_assign, byte_at.
  assert (Hqi : 0 <= i / 8 < 5)
    by (split; [apply Z.div_pos; lia | apply Z.div_lt_upper_bound; lia]).
  assert (Hqj : 0 <= j / 8 < 5)
    by (split; [apply Z.div_pos; lia | apply Z.div_lt_upper_bound; lia]).
  pose proof (Z.mod_pos_bound i 8 ltac:(lia)) as Hri.
  pose proof (Z.mod_pos_bound j 8 ltac:(lia)) as Hrj.
  pose proof (Z.div_mod i 8 ltac:(lia)) as Ei.
  pose proof (Z.div_mod j 8 ltac:(lia)) as Ej.
  destruct (Z.eq_dec (j / 8) (i / 8)) as [Eq|Ne].
  - rewrite Eq. rewrite nth_set_nth_eq by lia.
    unfold uint8. rewrite Z.mod_pow2_bits_low by lia.
    rewrite Z.lor_spec, Z.shiftl_1_l, Z.pow2_bits_eqb by lia.
    rewrite orb_comm. f_equal.
    destruct (Z.eqb_spec j i) as [->|Hne].
    + apply Z.eqb_refl.
    + apply Z.eqb_neq. lia.
  - rewrite nth_set_nth_neq by lia.
    destruct (Z.eqb_spec j i) as [->|Hne]; [congruence| reflexivity].
Qed.

(** *** Data bits *)

(** Output calls that do not touch the line. *)
Definition quiet (c : HalCall) : bool :=
  match c with
  | Hal_delay_us _ | Hal_critical_exit | Hal_notification _ => true
  | _ => false
  end.

(** [sampled b b' ds]: from [b] to [b'] the driver only sampled the pin and
    the counter, measured the pulse durations [ds], and made quiet calls. *)
Record sampled (b b' : Board) (ds : list Z) : Prop := {
  sampled_pin : pin_level b' = pin_level b;
  sampled_cyccnt : cyccnt b' = cyccnt b;
  sampled_pulses : pulses b' = pulses b ++ ds;
  sampled_calls : exists calls,
      hal_calls b' = hal_calls b ++ calls /\ forallb quiet calls = true;
  sampled_range : Forall (fun d => 0 <= d < 67108864) ds
}.

Lemma sampled_refl b : sampled b b [].
Proof.
  constructor; auto.
  - now rewrite app_nil_r.
  - exists []. now rewrite app_nil_r.
Qed.

Lemma sampled_trans b1 b2 b3 ds1 ds2 :
  sampled b1 b2 ds1 -> sampled b2 b3 ds2 -> sampled b1 b3 (ds1 ++ ds2).
Proof.
  intros [A1 A2 A3 [c1 [A4 A4']] A5] [B1 B2 B3 [c2 [B4 B4']] B5].
  constructor.
  - congruence.
  - congruence.
  - rewrite B3, A3. now rewrite app_assoc.
  - exists (c1 ++ c2). rewrite B4, A4, app_assoc. split; auto.
    rewrite forallb_app. now rewrite A4', B4'.
  - apply Forall_app. auto.
Qed.

Lemma sampled_hal b c : quiet c = true -> sampled b (hal c b) [].
Proof.
  intros H. constructor; simpl; auto.
  - now rewrite app_nil_r.
  - exists [c]. simpl. now rewrite H.
Qed.

Lemma forallb_repeat_quiet k : forallb quiet (repeat (Hal_delay_us 1) k) = true.
Proof. induction k; simpl; auto. Qed.

Lemma polled_sampled b b' : polled b b' -> sampled b b' [].
Proof.
  intros [P1 P2 _ _ P5 [k P6] _]. constructor; auto.
  - now rewrite app_nil_r.
  - exists (repeat (Hal_delay_us 1) k). split; auto. apply forallb_repeat_quiet.
Qed.

Lemma measure_loop_frame fuel c b b' :
  measure_loop fuel c b = Some b' ->
  pin_level b' = pin_level b /\ cyccnt b' = cyccnt b /\
  pulses b' = pulses b /\ hal_calls b' = hal_calls b /\
  cyccntena b' = cyccntena b.
Proof.
  revert b. induction fuel as [|fuel IH]; intros b; simpl; [discriminate|].
  destruct (pin_level b (pin_reads b)).
  - destruct (_ >? 200).
    + intros [= <-]. simpl. auto.
    + intros H. apply IH in H. simpl in H. exact H.
  - intros [= <-]. simpl. auto.
Qed.

Lemma pulse_range x : 0 <= uint32 x / 64 < 67108864.
Proof.
  pose proof (uint32_range x). split.
  - apply Z.div_pos; lia.
  - apply Z.div_lt_upper_bound; lia.
Qed.

Arguments wait_loop : simpl never.
Arguments measure_loop : simpl never.

Lemma wp_log_append e (Q : unit -> St -> Prop) R s :
  wp (log_append e) Q R s = Q tt (log_state e s).
Proof. reflexivity. Qed.

Lemma wp_wait_while level (Q : Z -> St -> Prop) R s :
  (forall t b', 0 <= t <= 200 -> sampled (board s) b' [] ->
                Q t (mkSt b' (app s) (trace s))) ->
  wp (wait_while level) Q R s.
Proof.
  intros H. unfold wait_while. rewrite wp_on_board. apply H.
  - apply wait_loop_le. lia.
  - apply polled_sampled, wait_loop_polled.
Qed.

Lemma dwt_enable_frame b :
  pin_level (dwt_enable b) = pin_level b /\ cyccnt (dwt_enable b) = cyccnt b /\
  pulses (dwt_enable b) = pulses b /\ hal_calls (dwt_enable b) = hal_calls b /\
  pin_reads (dwt_enable b) = pin_reads b /\ cyc_reads (dwt_enable b) = cyc_reads b.
Proof. unfold dwt_enable. destruct (negb _); simpl; auto 10. Qed.

(** The measurement part of an iteration, textually the same in both
    reads (lines 100-112 and 269-281). *)
Definition bit_measure (fuel : nat) : M Z :=
  on_board (fun b => (tt, dwt_enable b)) ;;
  start_cycles <- on_board DWT_CYCCNT ;;
  measure_high fuel start_cycles ;;
  end_cycles <- on_board DWT_CYCCNT ;;
  let pulse_duration_us := uint32 (end_cycles - start_cycles) / 64 in
  on_board (fun b => (tt, note_pulse pulse_duration_us b)) ;;
  ret pulse_duration_us.

Lemma wp_bit_measure fuel (Q : Z -> St -> Prop) R s :
  (forall b' d, sampled (board s) b' [d] -> Q d (mkSt b' (app s) (trace s))) ->
  wp (bit_measure fuel) Q R s.
Proof.
  intros HQ. unfold bit_measure.
  rewrite wp_bind, wp_on_board. simpl fst; simpl snd.
  rewrite wp_bind, wp_on_board. simpl fst; simpl snd.
  rewrite wp_bind. apply wp_measure_high. simpl. intros b Hb.
  rewrite wp_bind, wp_on_board. simpl fst; simpl snd.
  rewrite wp_bind, wp_on_board, wp_ret. simpl.
  apply HQ.
  apply measure_loop_frame in Hb. simpl in Hb.
  destruct (dwt_enable_frame (board s)) as (E1 & E2 & E3 & E4 & _).
  destruct Hb as (F1 & F2 & F3 & F4 & _).
  constructor; simpl.
  - congruence.
  - congruence.
  - rewrite F3, E3. reflexivity.
  - exists []. rewrite F4, E4, app_nil_r. auto.
  - constructor; [apply pulse_range | constructor].
Qed.

Lemma read_bit_unfold fuel i data s :
  read_bit fuel i data s
  = (timeout <- wait_while false ;;
     if timeout >=? 200 then
       FURI_CRITICAL_EXIT ;;
       notification_message sequence_blink_stop ;;
       return_ false (BitTimeout i)
     else
       d <- bit_measure fuel ;;
       if d >? 40
       then ret (or_assign data (uint8 (Z.quot i 8)) (uint8 (7 - Z.rem i 8)))
       else ret data) s.
Proof.
  unfold read_bit, bit_measure, bind.
  destruct (wait_while false s) as [t s1| |]; auto.
  destruct (t >=? 200); auto.
  cbv beta iota zeta delta [on_board DWT_CYCCNT measure_high ret board app trace].
  destruct (measure_loop _ _ _); auto.
Qed.

(** The state in which a timed-out wait inside the critical section
    returns: FURI_CRITICAL_EXIT, then the blink-stop notification. *)
Definition bailed (b : Board) : Board :=
  hal (Hal_notification sequence_blink_stop) (hal Hal_critical_exit b).

Lemma sampled_bailed b b' ds : sampled b b' ds -> sampled b (bailed b') ds.
Proof.
  intros H. rewrite <- (app_nil_r ds). eapply sampled_trans; [exact H|].
  change [] with (@nil Z ++ []). eapply sampled_trans; apply sampled_hal; reflexivity.
Qed.

Lemma wp_bail {A} site (Q : A -> St -> Prop) R s :
  wp (FURI_CRITICAL_EXIT ;; notification_message sequence_blink_stop ;;
      return_ false site) Q R s
  = R false site (mkSt (bailed (board s)) (app s) (trace s)).
Proof. reflexivity. Qed.

(** One iteration of the plain read: it returns [false] from the
    bit-start timeout, or stores the classified bit and goes on. *)
Lemma wp_read_bit fuel i data (Q : list Z -> St -> Prop) R s :
  0 <= i < 40 ->
  (forall b', sampled (board s) b' [] ->
     R false (BitTimeout i) (mkSt b' (app s) (trace s))) ->
  (forall b' d, sampled (board s) b' [d] ->
     Q (if d >? 40 then or_assign data (i / 8) (7 - i mod 8) else data)
       (mkSt b' (app s) (trace s))) ->
  wp (read_bit fuel i data) Q R s.
Proof.
  intros Hi HR HQ. unfold wp at 1. rewrite read_bit_unfold.
  rewrite byte_idx_eq, bit_idx_eq by lia.
  match goal with
  | |- match ?m s with _ => _ end => change (wp m Q R s)
  end.
  rewrite wp_bind. apply wp_wait_while. intros t b1 Ht Hb1.
  destruct (t >=? 200).
  - rewrite wp_bail. apply HR. simpl. now apply sampled_bailed.
  - rewrite wp_bind. apply wp_bit_measure. simpl. intros b' d Hd.
    specialize (HQ b' d (sampled_trans _ _ _ _ _ Hb1 Hd)).
    destruct (d >? 40); rewrite wp_ret; exact HQ.
Qed.

(** [packed k ds data data']: [data'] is [data] with the bits classified
    from the pulses [ds] or-ed in at wire positions [k], [k+1], ... *)
Definition packed (k : nat) (ds : list Z) (data data' : list Z) : Prop :=
  forall j : nat, (j < 40)%nat ->
    data_bit data' (Z.of_nat j)
    = ((k <=? j)%nat && (j <? k + List.length ds)%nat && (nth (j - k) ds 0 >? 40))
      || data_bit data (Z.of_nat j).

Lemma packed_nil k data : packed k [] data data.
Proof.
  intros j Hj. simpl.
  destruct (Nat.leb_spec k j), (Nat.ltb_spec j (k + 0)); simpl; auto; lia.
Qed.

Lemma packed_cons k d ds data data' :
  (k < 40)%nat -> frame_ok data ->
  packed (S k) ds
         (if d >? 40
          then or_assign data (Z.of_nat k / 8) (7 - Z.of_nat k mod 8) else data)
         data' ->
  packed k (d :: ds) data data'.
Proof.
  intros Hk Hok H j Hj. rewrite (H j Hj). clear H. simpl List.length.
  assert (Hbit : data_bit
            (if d >? 40
             then or_assign data (Z.of_nat k / 8) (7 - Z.of_nat k mod 8)
             else data) (Z.of_nat j)
          = ((j =? k)%nat && (d >? 40)) || data_bit data (Z.of_nat j)).
  { destruct (d >? 40).
    - rewrite or_assign_bit by (auto; lia). rewrite andb_true_r. f_equal.
      destruct (Nat.eqb_spec j k) as [->|Hne].
      + apply Z.eqb_refl.
      + apply Z.eqb_neq. lia.
    - now rewrite andb_false_r. }
  rewrite Hbit. clear Hbit.
  destruct (Nat.eqb_spec j k) as [->|Hne].
  - rewrite Nat.sub_diag. simpl nth.
    replace (S k <=? k)%nat with false by (symmetry; apply Nat.leb_gt; lia).
    replace (k <=? k)%nat with true by (symmetry; apply Nat.leb_le; lia).
    replace (k <? k + S (List.length ds))%nat with true
      by (symmetry; apply Nat.ltb_lt; lia).
    simpl. reflexivity.
  - simpl andb at 3. simpl orb at 2.
    destruct (Nat.leb_spec (S k) j) as [Hle|Hgt].
    + replace (k <=? j)%nat with true by (symmetry; apply Nat.leb_le; lia).
      replace (j - k)%nat with (S (j - S k)) by lia. simpl nth.
      replace (k + S (List.length ds))%nat with (S k + List.length ds)%nat by lia.
      reflexivity.
    + replace (k <=? j)%nat with false by (symmetry; apply Nat.leb_gt; lia).
      reflexivity.
Qed.

Lemma wp_read_bits fuel n :
  forall k data (Q : list Z -> St -> Prop) R s,
  (k + n <= 40)%nat -> frame_ok data ->
  (forall b' ds, sampled (board s) b' ds -> (List.length ds < n)%nat ->
     R false (BitTimeout (Z.of_nat (k + List.length ds)))
       (mkSt b' (app s) (trace s))) ->
  (forall b' ds data', sampled (board s) b' ds -> List.length ds = n ->
     frame_ok data' -> packed k ds data data' ->
     Q data' (mkSt b' (app s) (trace s))) ->
  wp (read_bits fuel (map Z.of_nat (seq k n)) data) Q R s.
Proof.
  induction n as [|n IH]; intros k data Q R s Hk Hok HR HQ.
  - simpl. rewrite wp_ret. destruct s as [b a t]. simpl in *.
    apply (HQ b [] data); auto using sampled_refl, packed_nil.
  - simpl. rewrite wp_bind. apply wp_read_bit; [lia| |].
    + intros b' Hb'. specialize (HR b' [] Hb'). simpl in HR.
      rewrite Nat.add_0_r in HR. apply HR. lia.
    + intros b1 d Hb1.
      apply IH; simpl.
      * lia.
      * destruct (d >? 40); auto using or_assign_ok.
      * intros b' ds Hb' Hlen.
        specialize (HR b' (d :: ds) (sampled_trans _ _ _ _ _ Hb1 Hb')).
        simpl in HR. rewrite Nat.add_succ_r in HR. apply HR. lia.
      * intros b' ds data' Hb' Hlen Hok' Hp.
        apply (HQ b' (d :: ds) data'); auto.
        -- exact (sampled_trans _ _ _ _ _ Hb1 Hb').
        -- simpl. lia.
        -- apply packed_cons; auto. lia.
Qed.

(** *** The frame phase of the plain read *)

(** The output calls of the start signal, up to the switch to input mode. *)
Definition start_signal : list HalCall :=
  [ Hal_notification sequence_blink_start_blue;
    Hal_gpio_init GpioModeOutputPushPull GpioPullNo;
    Hal_gpio_write false;
    Hal_delay_ms 20;
    Hal_critical_enter;
    Hal_gpio_write true;
    Hal_delay_us 30;
    Hal_gpio_init GpioModeInput GpioPullUp ].

(** [ran b b' ds]: from [b] to [b'] the driver issued the start signal
    once, then only sampled and made quiet calls, measuring [ds]. *)
Record ran (b b' : Board) (ds : list Z) : Prop := {
  ran_pin : pin_level b' = pin_level b;
  ran_cyccnt : cyccnt b' = cyccnt b;
  ran_pulses : pulses b' = pulses b ++ ds;
  ran_calls : exists calls,
      hal_calls b' = hal_calls b ++ start_signal ++ calls
      /\ forallb quiet calls = true;
  ran_range : Forall (fun d => 0 <= d < 67108864) ds
}.

Definition signalled (b : Board) : Board := fold_left (fun b c => hal c b) start_signal b.

Lemma signalled_sampled_ran b b' ds : sampled (signalled b) b' ds -> ran b b' ds.
Proof.
  intros [A1 A2 A3 [calls [A4 A5]] A6]. constructor; auto.
  exists calls. split; auto. rewrite A4. simpl.
  repeat rewrite <- app_assoc. reflexivity.
Qed.

Lemma ran_sampled b b1 b2 ds1 ds2 :
  ran b b1 ds1 -> sampled b1 b2 ds2 -> ran b b2 (ds1 ++ ds2).
Proof.
  intros [A1 A2 A3 [c1 [A4 A4']] A5] [B1 B2 B3 [c2 [B4 B4']] B5].
  constructor.
  - congruence.
  - congruence.
  - rewrite B3, A3. now rewrite app_assoc.
  - exists (c1 ++ c2). rewrite B4, A4. repeat rewrite <- app_assoc. split; auto.
    rewrite forallb_app. now rewrite A4', B4'.
  - apply Forall_app. auto.
Qed.

Definition handshake_site (site : Site) : Prop :=
  site = NoResponse \/ site = InvalidResponseTiming \/ site = ResponseTooLong.

Definition zero_frame : list Z := [0; 0; 0; 0; 0].

Lemma zero_frame_ok : frame_ok zero_frame.
Proof. split; [reflexivity | repeat constructor; lia]. Qed.

Lemma zero_frame_bit j : data_bit zero_frame j = false.
Proof.
  unfold data_bit, byte_at, zero_frame.
  generalize (7 - j mod 8). intros p.
  destruct (Z.to_nat (j / 8)) as [|[|[|[|[|[|n]]]]]]; apply Z.testbit_0_l.
Qed.

(** A frame holds the classification of the 40 pulses [ds], first pulse
    in the top bit of byte 0. *)
Definition frame_of_pulses (data : list Z) (ds : list Z) : Prop :=
  frame_ok data /\
  forall j : nat, (j < 40)%nat ->
    data_bit data (Z.of_nat j) = (nth j ds 0 >? 40).

Lemma packed_frame ds data :
  List.length ds = 40%nat -> frame_ok data -> packed 0 ds zero_frame data ->
  frame_of_pulses data ds.
Proof.
  intros Hl Hok Hp. split; auto. intros j Hj.
  rewrite (Hp j Hj), zero_frame_bit, orb_false_r, Hl, Nat.sub_0_r. simpl.
  replace (j <? 40)%nat with true by (symmetry; apply Nat.ltb_lt; lia).
  reflexivity.
Qed.

Lemma wp_sensor_read_frame fuel (Q : list Z -> St -> Prop) R s :
  (forall b' site, ran (board s) b' [] -> handshake_site site ->
     R false site (mkSt b' (app s) (trace s))) ->
  (forall b' ds, ran (board s) b' ds -> (List.length ds < 40)%nat ->
     R false (BitTimeout (Z.of_nat (List.length ds))) (mkSt b' (app s) (trace s))) ->
  (forall b' ds data, ran (board s) b' ds -> List.length ds = 40%nat ->
     frame_of_pulses data ds -> Q data (mkSt b' (app s) (trace s))) ->
  wp (sensor_read_frame fuel) Q R s.
Proof.
  intros HH HB HQ. unfold sensor_read_frame.
  unfold notification_message, furi_hal_gpio_init, furi_hal_gpio_write,
    furi_delay_ms, furi_delay_us, FURI_CRITICAL_ENTER.
  do 8 (rewrite wp_bind, wp_call). simpl board; simpl app; simpl trace.
  change (hal _ (hal _ (hal _ (hal _ (hal _ (hal _ (hal _ (hal _ (board s)))))))))
    with (signalled (board s)).
  fold FURI_CRITICAL_EXIT. fold (notification_message sequence_blink_stop).
  rewrite wp_bind. apply wp_wait_while. intros t1 b1 _ Hb1.
  destruct (t1 >=? 200).
  { rewrite wp_bail. apply HH; [|left; reflexivity].
    apply signalled_sampled_ran. now apply sampled_bailed. }
  rewrite wp_bind. apply wp_wait_while. simpl. intros t2 b2 _ Hb2.
  pose proof (sampled_trans _ _ _ _ _ Hb1 Hb2) as Hb12. simpl in Hb12.
  destruct (t2 >=? 200).
  { rewrite wp_bail. apply HH; [|right; left; reflexivity].
    apply signalled_sampled_ran. now apply sampled_bailed. }
  rewrite wp_bind. apply wp_wait_while. simpl. intros t3 b3 _ Hb3.
  pose proof (sampled_trans _ _ _ _ _ Hb12 Hb3) as Hb13. simpl in Hb13.
  destruct (t3 >=? 200).
  { rewrite wp_bail. apply HH; [|right; right; reflexivity].
    apply signalled_sampled_ran. now apply sampled_bailed. }
  rewrite wp_bind.
  apply (wp_read_bits fuel 40 0); simpl board; simpl app; simpl trace.
  - lia.
  - apply zero_frame_ok.
  - intros b' ds Hb' Hlen. apply (HB b' ds); auto.
    apply (ran_sampled _ _ _ [] ds (signalled_sampled_ran _ _ _ Hb13) Hb').
  - intros b' ds data Hb' Hlen Hok Hp.
    rewrite wp_bind. unfold FURI_CRITICAL_EXIT. rewrite wp_call, wp_ret.
    simpl. apply (HQ _ ds); auto.
    + rewrite <- (app_nil_r ds).
      apply (ran_sampled _ _ _ [] (ds ++ []) (signalled_sampled_ran _ _ _ Hb13)).
      eapply sampled_trans; [exact Hb'|]. apply sampled_hal. reflexivity.
    + now apply packed_frame.
Qed.

(** *** The trace of the debug read *)

Arguments log_state : simpl never.
Arguments snprintf : simpl never.
Arguments temp_msg : simpl never.

Definition with_board (b : Board) (s : St) : St := mkSt b (app s) (trace s).

(** The state after handing the entries [es] to the log, oldest first. *)
Definition log_all (es : list string) (s : St) : St :=
  fold_left (fun s e => log_state e s) es s.

Lemma log_all_app es1 es2 s : log_all (es1 ++ es2) s = log_all es2 (log_all es1 s).
Proof. unfold log_all. apply fold_left_app. Qed.

Lemma log_state_with_board e b s :
  log_state e (with_board b s) = with_board b (log_state e s).
Proof. reflexivity. Qed.

Lemma log_all_with_board es b s :
  log_all es (with_board b s) = with_board b (log_all es s).
Proof.
  revert s. induction es as [|e es IH]; intros s; simpl; auto.
  rewrite log_state_with_board. apply IH.
Qed.

Lemma with_board_twice b b' s : with_board b (with_board b' s) = with_board b s.
Proof. reflexivity. Qed.

Lemma board_log_all es s : board (log_all es s) = board s.
Proof. revert s. induction es as [|e es IH]; intros s; simpl; auto. now rewrite IH. Qed.

(** The entries the data loop writes for bit [i] with pulse duration [d]:
    sensor.c lines 296-302. *)
Definition bit_line (i d : Z) : list string :=
  if i <? 16 then [temp_msg (bit_entry_th i d (d >? 40))]
  else if Z.rem i 8 =? 7 then [temp_msg (bit_entry i d (d >? 40))]
  else [].

Fixpoint bit_lines (k : nat) (ds : list Z) : list string :=
  match ds with
  | [] => []
  | d :: ds' => bit_line (Z.of_nat k) d ++ bit_lines (S k) ds'
  end.

Definition bit_timeout_entry (i : Z) : string :=
  temp_msg (line ("ERROR: Bit " ++ fmt_d i ++ " start timeout")).

Lemma debug_read_bit_unfold fuel i data bits_read s :
  debug_read_bit fuel i (data, bits_read) s
  = (timeout <- wait_while false ;;
     if timeout >=? 200 then
       FURI_CRITICAL_EXIT ;;
       notification_message sequence_blink_stop ;;
       log_append (bit_timeout_entry i) ;;
       return_ false (BitTimeout i)
     else
       d <- bit_measure fuel ;;
       (fun st => Continue tt (log_all (bit_line i d) st)) ;;
       ret (if d >? 40
            then or_assign data (uint8 (Z.quot i 8)) (uint8 (7 - Z.rem i 8))
            else data, uint8 (bits_read + 1))) s.
Proof.
  unfold debug_read_bit, bit_measure, bind.
  destruct (wait_while false s) as [t s1| |]; auto.
  destruct (t >=? 200); auto.
  cbv beta iota zeta delta [on_board DWT_CYCCNT measure_high ret board app trace].
  destruct (measure_loop _ _ _); auto.
  unfold bit_line, log_msg, log_append.
  destruct (i <? 16); [reflexivity|].
  destruct (Z.rem i 8 =? 7); reflexivity.
Qed.

Lemma wp_debug_read_bit fuel i data bits_read (Q : list Z * Z -> St -> Prop) R s :
  0 <= i < 40 ->
  (forall b', sampled (board s) b' [] ->
     R false (BitTimeout i) (with_board b' (log_all [bit_timeout_entry i] s))) ->
  (forall b' d, sampled (board s) b' [d] ->
     Q (if d >? 40 then or_assign data (i / 8) (7 - i mod 8) else data,
        uint8 (bits_read + 1))
       (with_board b' (log_all (bit_line i d) s))) ->
  wp (debug_read_bit fuel i (data, bits_read)) Q R s.
Proof.
  intros Hi HR HQ. unfold wp at 1. rewrite debug_read_bit_unfold.
  rewrite byte_idx_eq, bit_idx_eq by lia.
  match goal with
  | |- match ?m s with _ => _ end => change (wp m Q R s)
  end.
  rewrite wp_bind. apply wp_wait_while. intros t b1 Ht Hb1.
  destruct (t >=? 200).
  - rewrite wp_bind. unfold FURI_CRITICAL_EXIT. rewrite wp_call.
    rewrite wp_bind. unfold notification_message. rewrite wp_call.
    rewrite wp_bind, wp_log_append, wp_return.
    apply (HR (bailed b1)). now apply sampled_bailed.
  - rewrite wp_bind. apply wp_bit_measure. simpl. intros b' d Hd.
    specialize (HQ b' d (sampled_trans _ _ _ _ _ Hb1 Hd)).
    rewrite wp_bind. unfold wp at 1. rewrite wp_ret.
    change (mkSt b' (app s) (trace s)) with (with_board b' s).
    rewrite log_all_with_board. exact HQ.
Qed.

Lemma wp_debug_read_bits fuel n :
  forall k data bits_read (Q : list Z * Z -> St -> Prop) R s,
  (k + n <= 40)%nat -> frame_ok data -> 0 <= bits_read -> bits_read + Z.of_nat n < 256 ->
  (forall b' ds, sampled (board s) b' ds -> (List.length ds < n)%nat ->
     R false (BitTimeout (Z.of_nat (k + List.length ds)))
       (with_board b'
          (log_all (bit_lines k ds
                    ++ [bit_timeout_entry (Z.of_nat (k + List.length ds))]) s))) ->
  (forall b' ds data', sampled (board s) b' ds -> List.length ds = n ->
     frame_ok data' -> packed k ds data data' ->
     Q (data', bits_read + Z.of_nat n) (with_board b' (log_all (bit_lines k ds) s))) ->
  wp (debug_read_bits fuel (map Z.of_nat (seq k n)) (data, bits_read)) Q R s.
Proof.
  induction n as [|n IH]; intros k data bits_read Q R s Hk Hok Hb0 Hb1 HR HQ.
  - simpl. rewrite wp_ret. specialize (HQ (board s) [] data).
    rewrite Z.add_0_r in HQ. destruct s. apply HQ; auto using sampled_refl, packed_nil.
  - simpl. rewrite wp_bind. apply wp_debug_read_bit; [lia| |].
    + intros b' Hb'. specialize (HR b' [] Hb'). simpl in HR.
      rewrite Nat.add_0_r in HR. apply HR. lia.
    + intros b1 d Hd. rewrite uint8_small by lia.
      apply IH; simpl board.
      * lia.
      * destruct (d >? 40); auto using or_assign_ok.
      * lia.
      * lia.
      * intros b' ds Hb' Hlen.
        specialize (HR b' (d :: ds) (sampled_trans _ _ _ _ _ Hd Hb')).
        simpl in HR. rewrite Nat.add_succ_r in HR.
        rewrite <- app_assoc, log_all_app in HR.
        rewrite log_all_with_board, with_board_twice. apply HR. lia.
      * intros b' ds data' Hb' Hlen Hok' Hp.
        rewrite log_all_with_board, with_board_twice.
        replace (bits_read + 1 + Z.of_nat n) with (bits_read + Z.of_nat (S n)) by lia.
        rewrite <- log_all_app.
        apply (HQ b' (d :: ds) data'); auto.
        -- exact (sampled_trans _ _ _ _ _ Hd Hb').
        -- simpl. lia.
        -- apply packed_cons; auto. lia.
Qed.

(** The entries of a debug read, in the order they are written. *)
Definition header (level : bool) : list string :=
  [ line "=== DHT11 Debug Log ===";
    line (line "Pin: C0 (GPIO 16)");
    line "1. LED: Blue flash started";
    temp_msg (line ("2. Initial pin state: " ++ (if level then "HIGH" else "LOW")));
    line "3. Start signal: Pin LOW for 20ms";
    line "4. Critical section: Interrupts disabled";
    line "5. Release signal: Pin HIGH for 30us";
    line "6. Input mode: Pull-up enabled" ].

Definition entry7 (t : Z) : string :=
  temp_msg (line ("7. Wait for LOW: " ++ fmt_lu t ++ "ms timeout="
                  ++ fmt_d (if t >=? 200 then 1 else 0))).
Definition entry8 (t : Z) : string :=
  temp_msg (line ("8. Response LOW: " ++ fmt_lu t ++ "ms")).
Definition entry9 (t : Z) : string :=
  temp_msg (line ("9. Response HIGH: " ++ fmt_lu t ++ "ms")).

(** The entry that names the outcome at each return statement. *)
Definition verdict_entry (site : Site) : string :=
  match site with
  | NoResponse => line "ERROR: No response from DHT11"
  | InvalidResponseTiming => line "ERROR: Invalid response timing"
  | ResponseTooLong => line "ERROR: Response too long"
  | BitTimeout i => bit_timeout_entry i
  | ChecksumMismatch => line "ERROR: Checksum mismatch"
  | OutOfRange => line "ERROR: Values out of range"
  | Complete => line "17. SUCCESS: Read completed"
  end.

Definition wiring_hint : string := line "Check: VCC->3.3V, GND->GND, DATA->C0".

(** Header, handshake and the bit lines of the pulses [ds]. *)
Definition data_phase_log (level : bool) (t1 t2 t3 : Z) (ds : list Z) : list string :=
  header level
  ++ [entry7 t1; entry8 t2; entry9 t3; line "10. Data transmission started"]
  ++ bit_lines 0 ds.

Definition trailer (data : list Z) : list string :=
  [ line "11. Critical section: Interrupts enabled";
    temp_msg (line ("12. Bits read: " ++ fmt_d 40 ++ "/40"));
    line "Timing Analysis:";
    line "- Using DWT cycle counter (64MHz = 1us)";
    line "- Current threshold: 40us";
    line "- Expected: 0=26-28us, 1=70us";
    line "- High precision cycle counting";
    temp_msg (line ("13. Raw data: " ++ fmt_02X (byte_at data 0) ++ " "
                    ++ fmt_02X (byte_at data 1) ++ " " ++ fmt_02X (byte_at data 2)
                    ++ " " ++ fmt_02X (byte_at data 3) ++ " "
                    ++ fmt_02X (byte_at data 4))) ].

(** The state left by [log_clear]. *)
Definition cleared (s : St) : St :=
  mkSt (board s)
       (mkApp (temperature (app s)) (humidity (app s)) (sensor_ok (app s)) EmptyString)
       (mkTrace 0 [] []).

Lemma wp_log_clear (Q : unit -> St -> Prop) R s :
  wp log_clear Q R s = Q tt (cleared s).
Proof. reflexivity. Qed.

(** Symbolic execution steps on states of the form
    [with_board b (log_all es s0)]. *)
Lemma wp_step_log {A} e (k : M A) Q R b es s0 :
  wp k Q R (with_board b (log_all (es ++ [e]) s0)) ->
  wp (log_append e ;; k) Q R (with_board b (log_all es s0)).
Proof.
  intros H. rewrite wp_bind, wp_log_append.
  rewrite log_state_with_board. now rewrite log_all_app in H.
Qed.

Lemma wp_step_call {A} c (k : M A) Q R b es s0 :
  wp k Q R (with_board (hal c b) (log_all es s0)) ->
  wp (call c ;; k) Q R (with_board b (log_all es s0)).
Proof. intros H. rewrite wp_bind, wp_call. exact H. Qed.

Lemma wp_step_wait {A} level (k : Z -> M A) Q R b es s0 :
  (forall t b', 0 <= t <= 200 -> sampled b b' [] ->
     wp (k t) Q R (with_board b' (log_all es s0))) ->
  wp (t <- wait_while level ;; k t) Q R (with_board b (log_all es s0)).
Proof. intros H. rewrite wp_bind. apply wp_wait_while. exact H. Qed.

Lemma wp_step_pin {A} (k : bool -> M A) Q R b es s0 :
  wp (k (fst (furi_hal_gpio_read b))) Q R
     (with_board (snd (furi_hal_gpio_read b)) (log_all es s0)) ->
  wp (level <- on_board furi_hal_gpio_read ;; k level) Q R
     (with_board b (log_all es s0)).
Proof. intros H. rewrite wp_bind, wp_on_board. exact H. Qed.

Lemma wp_step_clear {A} (k : M A) Q R s :
  wp k Q R (with_board (board s) (log_all [] (cleared s))) ->
  wp (log_clear ;; k) Q R s.
Proof. intros H. rewrite wp_bind, wp_log_clear. exact H. Qed.

Lemma wp_step_return {A} v site (Q : A -> St -> Prop) (R : bool -> Site -> St -> Prop) s :
  R v site s -> wp (return_ v site) Q R s.
Proof. auto. Qed.

Opaque log_state.

Ltac log_step :=
  lazymatch goal with
  | |- wp (bind (log_append _) _) _ _ _ => apply wp_step_log
  | |- wp (bind (call _) _) _ _ _ => apply wp_step_call
  end.
Ltac log_steps := repeat log_step.

Lemma wp_debug_read_frame fuel (Q : list Z -> St -> Prop) R s :
  (forall b' level t1, ran (board s) b' [] ->
     R false NoResponse
       (with_board b'
          (log_all (header level ++ [entry7 t1; verdict_entry NoResponse; wiring_hint])
                   (cleared s)))) ->
  (forall b' level t1 t2, ran (board s) b' [] ->
     R false InvalidResponseTiming
       (with_board b'
          (log_all (header level
                    ++ [entry7 t1; entry8 t2; verdict_entry InvalidResponseTiming])
                   (cleared s)))) ->
  (forall b' level t1 t2 t3, ran (board s) b' [] ->
     R false ResponseTooLong
       (with_board b'
          (log_all (header level
                    ++ [entry7 t1; entry8 t2; entry9 t3; verdict_entry ResponseTooLong])
                   (cleared s)))) ->
  (forall b' level t1 t2 t3 ds, ran (board s) b' ds -> (List.length ds < 40)%nat ->
     R false (BitTimeout (Z.of_nat (List.length ds)))
       (with_board b'
          (log_all (data_phase_log level t1 t2 t3 ds
                    ++ [verdict_entry (BitTimeout (Z.of_nat (List.length ds)))])
                   (cleared s)))) ->
  (forall b' level t1 t2 t3 ds data, ran (board s) b' ds ->
     List.length ds = 40%nat -> frame_of_pulses data ds ->
     Q data
       (with_board b'
          (log_all (data_phase_log level t1 t2 t3 ds ++ trailer data) (cleared s)))) ->
  wp (debug_read_frame fuel) Q R s.
Proof.
  intros H1 H2 H3 HB HQ. unfold debug_read_frame.
  unfold notification_message, furi_hal_gpio_init, furi_hal_gpio_write,
    furi_delay_ms, furi_delay_us, FURI_CRITICAL_ENTER, FURI_CRITICAL_EXIT, log_msg.
  apply wp_step_clear.
  log_steps. apply wp_step_pin.
  set (level := fst (furi_hal_gpio_read _)).
  log_steps. cbn [app].
  match goal with
  | |- wp _ _ _ (with_board ?b0 _) =>
      assert (Hb0 : sampled (signalled (board s)) b0 [])
        by (constructor; cbn [pin_level cyccnt pulses hal_calls hal signalled
                              fold_left start_signal furi_hal_gpio_read snd];
            auto;
            [now rewrite app_nil_r
            | exists []; rewrite app_nil_r; split; [|reflexivity];
              repeat rewrite <- app_assoc; reflexivity ]);
      generalize dependent b0
  end.
  intros b0 Hb0.
  match goal with
  | |- wp ?m Q R (with_board b0 (log_all ?es (cleared s))) =>
      change es with (header level)
  end.
  apply wp_step_wait. intros t1 b1 _ Hb1.
  pose proof (sampled_trans _ _ _ _ _ Hb0 Hb1) as Hs1. cbn [app] in Hs1.
  log_step. fold (entry7 t1).
  destruct (t1 >=? 200).
  { log_steps. apply wp_step_return. repeat rewrite <- app_assoc.
    cbn [app]. apply (H1 (bailed b1) level t1).
    apply signalled_sampled_ran. now apply sampled_bailed. }
  apply wp_step_wait. intros t2 b2 _ Hb2.
  pose proof (sampled_trans _ _ _ _ _ Hs1 Hb2) as Hs2. cbn [app] in Hs2.
  log_step. fold (entry8 t2).
  destruct (t2 >=? 200).
  { log_steps. apply wp_step_return. repeat rewrite <- app_assoc.
    cbn [app]. apply (H2 (bailed b2) level t1 t2).
    apply signalled_sampled_ran. now apply sampled_bailed. }
  apply wp_step_wait. intros t3 b3 _ Hb3.
  pose proof (sampled_trans _ _ _ _ _ Hs2 Hb3) as Hs3. cbn [app] in Hs3.
  log_step. fold (entry9 t3).
  destruct (t3 >=? 200).
  { log_steps. apply wp_step_return. repeat rewrite <- app_assoc.
    cbn [app]. apply (H3 (bailed b3) level t1 t2 t3).
    apply signalled_sampled_ran. now apply sampled_bailed. }
  log_step. repeat rewrite <- app_assoc. cbn [app].
  match goal with
  | |- wp ?m Q R (with_board b3 (log_all ?es (cleared s))) =>
      replace es with (data_phase_log level t1 t2 t3 [])
        by (unfold data_phase_log; rewrite app_nil_r; reflexivity)
  end.
  rewrite wp_bind.
  apply (wp_debug_read_bits fuel 40 0).
  - lia.
  - apply zero_frame_ok.
  - lia.
  - lia.
  - intros b' ds Hb' Hlen. cbn [board with_board] in Hb'.
    rewrite log_all_with_board, with_board_twice, <- log_all_app.
    replace (data_phase_log level t1 t2 t3 []
             ++ bit_lines 0 ds ++ [bit_timeout_entry (Z.of_nat (0 + List.length ds))])
      with (data_phase_log level t1 t2 t3 ds
            ++ [verdict_entry (BitTimeout (Z.of_nat (List.length ds)))])
      by (unfold data_phase_log; rewrite app_nil_r;
          repeat rewrite <- app_assoc; reflexivity).
    apply (HB b' level t1 t2 t3 ds); auto.
    apply (ran_sampled _ _ _ [] ds (signalled_sampled_ran _ _ _ Hs3) Hb').
  - intros b' ds data Hb' Hlen Hok Hp. cbn [board with_board] in Hb'.
    rewrite log_all_with_board, with_board_twice, <- log_all_app.
    replace (data_phase_log level t1 t2 t3 [] ++ bit_lines 0 ds)
      with (data_phase_log level t1 t2 t3 ds)
      by (unfold data_phase_log; rewrite app_nil_r; reflexivity).
    change (0 + Z.of_nat 40) with 40.
    log_steps. rewrite wp_ret. repeat rewrite <- app_assoc. cbn [app].
    apply (HQ (hal Hal_critical_exit b') level t1 t2 t3 ds data); auto;
      [| now apply packed_frame].
    rewrite <- (app_nil_r ds).
    apply (ran_sampled _ _ _ [] (ds ++ []) (signalled_sampled_ran _ _ _ Hs3)).
    eapply sampled_trans; [exact Hb'|]. apply sampled_hal. reflexivity.
Qed.

(** *** Validation *)

(** The conversion of lines 136-142: data[2] read as sign and magnitude. *)
Definition sign_magnitude (x : Z) : Z :=
  if negb (Z.land x 128 =? 0) then - (Z.land x 127) else x.

(** The state after [app->humidity = h; app->temperature = t]. *)
Definition stored (h t : Z) (s : St) : St :=
  mkSt (board s) (mkApp t h (sensor_ok (app s)) (debug_log (app s))) (trace s).

Definition frame_checksum (data : list Z) : Z :=
  uint8 (byte_at data 0 + byte_at data 1 + byte_at data 2 + byte_at data 3).

Definition verdict (h t : Z) : Site := if out_of_range h t then OutOfRange else Complete.

Lemma sensor_read_validate_run data s :
  sensor_read_validate data s
  = let b' := hal (Hal_notification sequence_blink_stop) (board s) in
    if negb (frame_checksum data =? byte_at data 4)
    then Returned false ChecksumMismatch (with_board b' s)
    else
      let h := byte_at data 0 in
      let t := sign_magnitude (byte_at data 2) in
      Returned (negb (out_of_range h t)) (verdict h t) (with_board b' (stored h t s)).
Proof.
  unfold sensor_read_validate, frame_checksum, sign_magnitude, verdict.
  destruct (negb (_ =? byte_at data 4)); [reflexivity|].
  destruct (negb (Z.land _ 128 =? 0));
    cbv beta iota zeta delta [bind set_humidity set_temperature get_humidity
                              get_temperature ret temperature humidity app];
    destruct (out_of_range _ _); reflexivity.
Qed.

Definition entry14 (data : list Z) : string :=
  temp_msg (line ("14. Checksum calc: " ++ fmt_02X (frame_checksum data)
                  ++ ", received: " ++ fmt_02X (byte_at data 4))).
Definition entry15 (h : Z) : string :=
  temp_msg (line ("15. Humidity: " ++ fmt_1f h ++ "%")).
Definition entry16 (t : Z) : string :=
  temp_msg (line ("16. Temperature: " ++ fmt_1f t ++ degree ++ "C")).

Transparent log_state.

Lemma store_humidity_log_state h e s :
  log_state e (store_humidity h s) = store_humidity h (log_state e s).
Proof. reflexivity. Qed.

Lemma store_temperature_log_state t e s :
  log_state e (store_temperature t s) = store_temperature t (log_state e s).
Proof. reflexivity. Qed.

Lemma app_log_state e s :
  temperature (app (log_state e s)) = temperature (app s)
  /\ humidity (app (log_state e s)) = humidity (app s)
  /\ sensor_ok (app (log_state e s)) = sensor_ok (app s).
Proof. auto. Qed.

Opaque log_state.

Lemma store_humidity_log_all h es s :
  log_all es (store_humidity h s) = store_humidity h (log_all es s).
Proof.
  revert s. induction es as [|e es IH]; intros s; simpl; auto.
  rewrite store_humidity_log_state. apply IH.
Qed.

Lemma store_temperature_log_all t es s :
  log_all es (store_temperature t s) = store_temperature t (log_all es s).
Proof.
  revert s. induction es as [|e es IH]; intros s; simpl; auto.
  rewrite store_temperature_log_state. apply IH.
Qed.

Lemma app_log_all es s :
  temperature (app (log_all es s)) = temperature (app s)
  /\ humidity (app (log_all es s)) = humidity (app s)
  /\ sensor_ok (app (log_all es s)) = sensor_ok (app s).
Proof.
  revert s. induction es as [|e es IH]; intros s; simpl; auto.
  destruct (IH (log_state e s)) as (A & B & C).
  destruct (app_log_state e s) as (A' & B' & C'). repeat split; congruence.
Qed.

Lemma wp_step_set_humidity {A} h (k : M A) Q R b es s0 :
  wp k Q R (with_board b (log_all es (store_humidity h s0))) ->
  wp (set_humidity h ;; k) Q R (with_board b (log_all es s0)).
Proof.
  intros H. rewrite wp_bind. unfold wp at 1, set_humidity.
  rewrite store_humidity_log_all in H. exact H.
Qed.

Lemma wp_step_set_temperature {A} t (k : M A) Q R b es s0 :
  wp k Q R (with_board b (log_all es (store_temperature t s0))) ->
  wp (set_temperature t ;; k) Q R (with_board b (log_all es s0)).
Proof.
  intros H. rewrite wp_bind. unfold wp at 1, set_temperature.
  rewrite store_temperature_log_all in H. exact H.
Qed.

Lemma wp_step_get_humidity {A} (k : Z -> M A) Q R b es s0 :
  wp (k (humidity (app s0))) Q R (with_board b (log_all es s0)) ->
  wp (h <- get_humidity ;; k h) Q R (with_board b (log_all es s0)).
Proof.
  intros H. rewrite wp_bind. unfold wp at 1, get_humidity.
  cbn [with_board app]. destruct (app_log_all es s0) as (_ & -> & _). exact H.
Qed.

Lemma wp_step_get_temperature {A} (k : Z -> M A) Q R b es s0 :
  wp (k (temperature (app s0))) Q R (with_board b (log_all es s0)) ->
  wp (t <- get_temperature ;; k t) Q R (with_board b (log_all es s0)).
Proof.
  intros H. rewrite wp_bind. unfold wp at 1, get_temperature.
  cbn [with_board app]. destruct (app_log_all es s0) as (-> & _ & _). exact H.
Qed.

Lemma wp_debug_read_validate data (Q : unit -> St -> Prop) R b es s0 :
  (frame_checksum data <> byte_at data 4 ->
   R false ChecksumMismatch
     (with_board (hal (Hal_notification sequence_blink_stop) b)
        (log_all (es ++ [entry14 data; verdict_entry ChecksumMismatch]) s0))) ->
  (frame_checksum data = byte_at data 4 ->
   let h := byte_at data 0 in
   let t := byte_at data 2 in
   R (negb (out_of_range h t)) (verdict h t)
     (with_board (hal (Hal_notification sequence_blink_stop) b)
        (log_all (es ++ [entry14 data; entry15 h; entry16 t;
                         verdict_entry (verdict h t)])
                 (stored h t s0)))) ->
  wp (debug_read_validate data) Q R (with_board b (log_all es s0)).
Proof.
  intros HC HV. unfold debug_read_validate. fold (frame_checksum data).
  unfold log_msg, notification_message. fold (entry14 data).
  log_step.
  destruct (Z.eqb_spec (frame_checksum data) (byte_at data 4)) as [E|E]; cbn [negb].
  - apply wp_step_set_humidity, wp_step_set_temperature, wp_step_get_humidity.
    cbn [store_temperature store_humidity humidity temperature app].
    fold (entry15 (byte_at data 0)).
    log_step. apply wp_step_get_temperature.
    cbn [store_temperature store_humidity humidity temperature app].
    fold (entry16 (byte_at data 2)).
    log_step. specialize (HV E). cbv zeta in HV. unfold verdict in HV.
    repeat rewrite <- app_assoc in HV. cbn [app] in HV.
    destruct (out_of_range _ _); log_steps; apply wp_step_return;
      repeat rewrite <- app_assoc; cbn [app]; exact HV.
  - log_steps. apply wp_step_return. repeat rewrite <- app_assoc. cbn [app].
    specialize (HC E). repeat rewrite <- app_assoc in HC. exact HC.
Qed.

(** *** Sizes of trace entries *)

Lemma length_append (s1 s2 : string) :
  String.length (s1 ++ s2) = (String.length s1 + String.length s2)%nat.
Proof. induction s1 as [|c s1 IH]; simpl; auto. Qed.

Lemma truncate_length n s : (String.length (truncate n s) <= String.length s)%nat.
Proof.
  revert n. induction s as [|c s IH]; intros n; simpl; auto.
  destruct (n <=? 0); simpl; [lia|]. specialize (IH (n - 1)). lia.
Qed.

Lemma truncate_fits n s : Z.of_nat (String.length s) <= n -> truncate n s = s.
Proof.
  revert n. induction s as [|c s IH]; intros n H; simpl in *; auto.
  destruct (Z.leb_spec n 0); [lia|]. f_equal. apply IH. lia.
Qed.

Lemma temp_msg_length s : (String.length (temp_msg s) <= String.length s)%nat.
Proof. unfold temp_msg, snprintf. simpl. apply truncate_length. Qed.

Lemma line_length s : String.length (line s) = S (String.length s).
Proof. unfold line. rewrite length_append. simpl. lia. Qed.

Lemma digits_length fuel n acc :
  (String.length (digits fuel n acc) <= S fuel + String.length acc)%nat.
Proof.
  revert n acc. induction fuel as [|fuel IH]; intros n acc; simpl; [lia|].
  destruct (n / 10 =? 0); simpl; [lia|].
  specialize (IH (n / 10) (String (digit_char (n mod 10)) acc)). simpl in IH. lia.
Qed.

Lemma fmt_lu_length n : (String.length (fmt_lu n) <= 10)%nat.
Proof. unfold fmt_lu. pose proof (digits_length 9 n EmptyString). simpl in *. lia. Qed.

Lemma fmt_d_length n : (String.length (fmt_d n) <= 11)%nat.
Proof.
  unfold fmt_d. destruct (n <? 0).
  - rewrite length_append. pose proof (fmt_lu_length (- n)). simpl. lia.
  - pose proof (fmt_lu_length n). lia.
Qed.

Lemma fmt_1f_length n : (String.length (fmt_1f n) <= 13)%nat.
Proof.
  unfold fmt_1f. rewrite length_append. pose proof (fmt_d_length n). simpl. lia.
Qed.

Lemma fmt_02X_length n : String.length (fmt_02X n) = 2%nat.
Proof. reflexivity. Qed.

(** The number of characters the entries [es] ask snprintf to write. *)
Definition log_size (es : list string) : Z :=
  fold_right (fun e n => Z.of_nat (String.length e) + n) 0 es.

Lemma log_size_app es1 es2 : log_size (es1 ++ es2) = log_size es1 + log_size es2.
Proof. induction es1 as [|e es1 IH]; simpl; lia. Qed.

Lemma log_size_nonneg es : 0 <= log_size es.
Proof. induction es as [|e es IH]; simpl; lia. Qed.

(** Upper bounds on the length of each entry, whatever the values printed. *)
Create Rewrite HintDb strlen.
Hint Rewrite line_length length_append fmt_02X_length : strlen.

Ltac abstract_length :=
  repeat match goal with
         | |- context [String.length (temp_msg ?a)] =>
             let n := fresh "n" in
             pose proof (temp_msg_length a);
             set (n := String.length (temp_msg a)) in *; clearbody n
         end;
  autorewrite with strlen in *;
  repeat match goal with
         | H : context [String.length (fmt_lu ?x)] |- _ =>
             let n := fresh "n" in
             pose proof (fmt_lu_length x);
             set (n := String.length (fmt_lu x)) in *; clearbody n
         | H : context [String.length (fmt_d ?x)] |- _ =>
             let n := fresh "n" in
             pose proof (fmt_d_length x);
             set (n := String.length (fmt_d x)) in *; clearbody n
         | H : context [String.length (fmt_1f ?x)] |- _ =>
             let n := fresh "n" in
             pose proof (fmt_1f_length x);
             set (n := String.length (fmt_1f x)) in *; clearbody n
         end;
  cbn [String.length] in *.

Ltac size_bound := unfold log_size, fold_right; abstract_length; lia.

Lemma entry7_length t : (String.length (entry7 t) <= 51)%nat.
Proof. unfold entry7. size_bound. Qed.

Lemma entry8_length t : (String.length (entry8 t) <= 31)%nat.
Proof. unfold entry8. size_bound. Qed.

Lemma entry9_length t : (String.length (entry9 t) <= 32)%nat.
Proof. unfold entry9. size_bound. Qed.

Lemma entry14_length data : (String.length (entry14 data) <= 36)%nat.
Proof. unfold entry14. size_bound. Qed.

Lemma entry15_length h : (String.length (entry15 h) <= 29)%nat.
Proof. unfold entry15. size_bound. Qed.

Lemma entry16_length t : (String.length (entry16 t) <= 34)%nat.
Proof. unfold entry16, degree. size_bound. Qed.

Lemma bit_timeout_entry_length i : (String.length (bit_timeout_entry i) <= 37)%nat.
Proof. unfold bit_timeout_entry. size_bound. Qed.

Lemma verdict_entry_length site : (String.length (verdict_entry site) <= 37)%nat.
Proof.
  destruct site; try (cbn; lia). apply bit_timeout_entry_length.
Qed.

Lemma header_size level : log_size (header level) <= 240.
Proof. destruct level; vm_compute; discriminate. Qed.

Lemma trailer_size data : log_size (trailer data) <= 245.
Proof. unfold trailer. size_bound. Qed.

(** The most a bit line can take, by bit index. *)
Definition bit_weight (i : Z) : Z :=
  if i <? 16 then 52 else if Z.rem i 8 =? 7 then 44 else 0.

Fixpoint budget (k n : nat) : Z :=
  match n with
  | O => 0
  | S n' => bit_weight (Z.of_nat k) + budget (S k) n'
  end.

Lemma bit_line_size i d : log_size (bit_line i d) <= bit_weight i.
Proof.
  unfold bit_line, bit_weight, bit_entry_th, bit_entry.
  destruct (i <? 16); [size_bound|].
  destruct (Z.rem i 8 =? 7); [size_bound|]. simpl. lia.
Qed.

Lemma bit_lines_size ds : forall k, log_size (bit_lines k ds) <= budget k (List.length ds).
Proof.
  induction ds as [|d ds IH]; intros k; simpl; [lia|].
  rewrite log_size_app. pose proof (bit_line_size (Z.of_nat k) d).
  specialize (IH (S k)). lia.
Qed.

Lemma bit_weight_nonneg i : 0 <= bit_weight i.
Proof. unfold bit_weight. destruct (i <? 16); [lia|]. destruct (_ =? 7); lia. Qed.

Lemma budget_nonneg n : forall k, 0 <= budget k n.
Proof.
  induction n as [|n IH]; intros k; simpl; [lia|].
  pose proof (bit_weight_nonneg (Z.of_nat k)). specialize (IH (S k)). lia.
Qed.

Lemma budget_mono n m : forall k, budget k n <= budget k (n + m).
Proof.
  induction n as [|n IH]; intros k; simpl.
  - apply budget_nonneg.
  - specialize (IH (S k)). lia.
Qed.

Lemma budget_40 n : (n <= 40)%nat -> budget 0 n <= 964.
Proof.
  intros H.
  pose proof (budget_mono n (40 - n) 0) as Hm.
  replace (n + (40 - n))%nat with 40%nat in Hm by lia.
  change (budget 0 40) with 964 in Hm. exact Hm.
Qed.

Lemma data_phase_log_size level t1 t2 t3 ds :
  (List.length ds <= 40)%nat -> log_size (data_phase_log level t1 t2 t3 ds) <= 1348.
Proof.
  intros H. unfold data_phase_log. rewrite !log_size_app.
  pose proof (header_size level). pose proof (bit_lines_size ds 0).
  pose proof (budget_40 _ H).
  pose proof (entry7_length t1). pose proof (entry8_length t2).
  pose proof (entry9_length t3).
  unfold log_size at 2, fold_right. cbn [String.length line append nl]. lia.
Qed.

(** *** The log buffer *)

(** The entries laid end to end. *)
Definition log_text (es : list string) : string :=
  fold_right String.append EmptyString es.

Lemma append_empty_r (s : string) : (s ++ EmptyString)%string = s.
Proof. induction s as [|c s IH]; simpl; congruence. Qed.

Lemma append_assoc3 (a b c : string) : ((a ++ b) ++ c)%string = (a ++ b ++ c)%string.
Proof. induction a as [|x a IH]; simpl; congruence. Qed.

Lemma log_text_snoc l e : log_text (l ++ [e]) = (log_text l ++ e)%string.
Proof.
  induction l as [|a l IH]; simpl.
  - apply append_empty_r.
  - rewrite IH. now rewrite append_assoc3.
Qed.

Lemma log_text_length es : Z.of_nat (String.length (log_text es)) = log_size es.
Proof.
  induction es as [|e es IH]; simpl; auto. rewrite length_append. lia.
Qed.

(** The buffer holds exactly what was logged, and the next write starts
    at its end. *)
Record log_ok (s : St) : Prop := {
  ok_pos : log_pos (trace s) = log_size (log_entries (trace s));
  ok_text : debug_log (app s) = log_text (log_entries (trace s));
  ok_offsets : Forall (fun o => 0 <= o <= log_pos (trace s)) (log_offsets (trace s));
  ok_count : List.length (log_offsets (trace s)) = List.length (log_entries (trace s))
}.

Transparent log_state.

Lemma log_state_ok e s :
  log_ok s ->
  log_pos (trace s) + Z.of_nat (String.length e) < DEBUG_LOG_SIZE ->
  log_ok (log_state e s)
  /\ log_entries (trace (log_state e s)) = log_entries (trace s) ++ [e].
Proof.
  intros [Hp Ht Ho Hc] Hfit. unfold DEBUG_LOG_SIZE in *.
  pose proof (log_size_nonneg (log_entries (trace s))) as Hnn.
  assert (Hsz : uint32 (2048 - log_pos (trace s)) = 2048 - log_pos (trace s))
    by (apply uint32_small; lia).
  split; [|reflexivity].
  constructor; unfold log_state, DEBUG_LOG_SIZE, snprintf; cbn [trace app log_pos
    log_entries log_offsets debug_log fst snd]; rewrite ?Hsz.
  - rewrite uint32_small by lia. rewrite log_size_app. simpl. lia.
  - destruct (Z.leb_spec (log_pos (trace s)) 2048); [|lia].
    destruct (Z.eqb_spec (2048 - log_pos (trace s)) 0); [lia|].
    rewrite truncate_fits by lia. rewrite log_text_snoc. now rewrite Ht.
  - rewrite uint32_small by lia. apply Forall_app. split.
    + eapply Forall_impl; [|exact Ho]. simpl. intros; lia.
    + constructor; [lia | constructor].
  - rewrite !length_app, Hc. reflexivity.
Qed.

Opaque log_state.

Lemma log_all_ok es : forall s,
  log_ok s ->
  log_pos (trace s) + log_size es < DEBUG_LOG_SIZE ->
  log_ok (log_all es s)
  /\ log_entries (trace (log_all es s)) = log_entries (trace s) ++ es.
Proof.
  induction es as [|e es IH]; intros s Hok Hfit; simpl in *.
  - now rewrite app_nil_r.
  - pose proof (log_size_nonneg es).
    destruct (log_state_ok e s Hok ltac:(lia)) as [Hok' He].
    destruct (IH (log_state e s) Hok') as [Hok'' He'].
    + destruct Hok' as [Hp' _ _ _]. rewrite Hp', He, log_size_app.
      destruct Hok as [Hp _ _ _]. rewrite Hp in Hfit. simpl. lia.
    + split; auto. rewrite He', He, <- app_assoc. reflexivity.
Qed.

Lemma cleared_ok s : log_ok (cleared s).
Proof. constructor; simpl; auto. Qed.

Lemma with_board_ok b s : log_ok s -> log_ok (with_board b s).
Proof. intros [A B C D]. constructor; auto. Qed.

Lemma stored_ok h t s : log_ok s -> log_ok (stored h t s).
Proof. intros [A B C D]. constructor; auto. Qed.

(** ** Every run of the two reads *)

Lemma ran_stop b b' ds :
  ran b b' ds -> ran b (hal (Hal_notification sequence_blink_stop) b') ds.
Proof.
  intros H. rewrite <- (app_nil_r ds). eapply ran_sampled; [exact H|].
  apply sampled_hal. reflexivity.
Qed.

(** The ways [dht11_sensor_read] returns from a state [s]: the returned
    value, the return statement taken and the state left behind. *)
Inductive read_outcome (s : St) : bool -> Site -> St -> Prop :=
| read_handshake b' site :
    ran (board s) b' [] -> handshake_site site ->
    read_outcome s false site (with_board b' s)
| read_bit_timeout b' ds :
    ran (board s) b' ds -> (List.length ds < 40)%nat ->
    read_outcome s false (BitTimeout (Z.of_nat (List.length ds))) (with_board b' s)
| read_checksum b' ds data :
    ran (board s) b' ds -> List.length ds = 40%nat -> frame_of_pulses data ds ->
    frame_checksum data <> byte_at data 4 ->
    read_outcome s false ChecksumMismatch (with_board b' s)
| read_validated b' ds data :
    ran (board s) b' ds -> List.length ds = 40%nat -> frame_of_pulses data ds ->
    frame_checksum data = byte_at data 4 ->
    let h := byte_at data 0 in
    let t := sign_magnitude (byte_at data 2) in
    read_outcome s (negb (out_of_range h t)) (verdict h t)
                 (with_board b' (stored h t s)).

Lemma wp_sensor_read_validate data (Q : unit -> St -> Prop) R s :
  (frame_checksum data <> byte_at data 4 ->
   R false ChecksumMismatch
     (with_board (hal (Hal_notification sequence_blink_stop) (board s)) s)) ->
  (frame_checksum data = byte_at data 4 ->
   let h := byte_at data 0 in
   let t := sign_magnitude (byte_at data 2) in
   R (negb (out_of_range h t)) (verdict h t)
     (with_board (hal (Hal_notification sequence_blink_stop) (board s))
                 (stored h t s))) ->
  wp (sensor_read_validate data) Q R s.
Proof.
  intros HC HV. unfold wp. rewrite sensor_read_validate_run. cbv zeta.
  destruct (Z.eqb_spec (frame_checksum data) (byte_at data 4)) as [E|E]; cbn [negb].
  - exact (HV E).
  - exact (HC E).
Qed.

Lemma dht11_sensor_read_outcome fuel s :
  wp (dht11_sensor_read fuel) (fun _ _ => False) (read_outcome s) s.
Proof.
  unfold dht11_sensor_read. rewrite wp_bind. apply wp_sensor_read_frame.
  - intros b' site Hb Hs. now apply read_handshake.
  - intros b' ds Hb Hl. now apply read_bit_timeout.
  - intros b' ds data Hb Hl Hf. apply wp_sensor_read_validate; cbn [board].
    + intros E.
      apply (read_checksum s _ ds data); auto using ran_stop.
    + intros E.
      apply (read_validated s _ ds data); auto using ran_stop.
Qed.

(** The ways [dht11_sensor_debug_read] returns from a state [s]. *)
Inductive debug_outcome (s : St) : bool -> Site -> St -> Prop :=
| debug_no_response b' level t1 :
    ran (board s) b' [] ->
    debug_outcome s false NoResponse
      (with_board b'
         (log_all (header level ++ [entry7 t1; verdict_entry NoResponse; wiring_hint])
                  (cleared s)))
| debug_invalid_response b' level t1 t2 :
    ran (board s) b' [] ->
    debug_outcome s false InvalidResponseTiming
      (with_board b'
         (log_all (header level
                   ++ [entry7 t1; entry8 t2; verdict_entry InvalidResponseTiming])
                  (cleared s)))
| debug_response_too_long b' level t1 t2 t3 :
    ran (board s) b' [] ->
    debug_outcome s false ResponseTooLong
      (with_board b'
         (log_all (header level
                   ++ [entry7 t1; entry8 t2; entry9 t3; verdict_entry ResponseTooLong])
                  (cleared s)))
| debug_bit_timeout b' level t1 t2 t3 ds :
    ran (board s) b' ds -> (List.length ds < 40)%nat ->
    debug_outcome s false (BitTimeout (Z.of_nat (List.length ds)))
      (with_board b'
         (log_all (data_phase_log level t1 t2 t3 ds
                   ++ [verdict_entry (BitTimeout (Z.of_nat (List.length ds)))])
                  (cleared s)))
| debug_checksum b' level t1 t2 t3 ds data :
    ran (board s) b' ds -> List.length ds = 40%nat -> frame_of_pulses data ds ->
    frame_checksum data <> byte_at data 4 ->
    debug_outcome s false ChecksumMismatch
      (with_board b'
         (log_all ((data_phase_log level t1 t2 t3 ds ++ trailer data)
                   ++ [entry14 data; verdict_entry ChecksumMismatch])
                  (cleared s)))
| debug_validated b' level t1 t2 t3 ds data :
    ran (board s) b' ds -> List.length ds = 40%nat -> frame_of_pulses data ds ->
    frame_checksum data = byte_at data 4 ->
    let h := byte_at data 0 in
    let t := byte_at data 2 in
    debug_outcome s (negb (out_of_range h t)) (verdict h t)
      (with_board b'
         (log_all ((data_phase_log level t1 t2 t3 ds ++ trailer data)
                   ++ [entry14 data; entry15 h; entry16 t;
                       verdict_entry (verdict h t)])
                  (stored h t (cleared s)))).

Lemma dht11_sensor_debug_read_outcome fuel s :
  wp (dht11_sensor_debug_read fuel) (fun _ _ => False) (debug_outcome s) s.
Proof.
  unfold dht11_sensor_debug_read. rewrite wp_bind. apply wp_debug_read_frame.
  - intros. now apply debug_no_response.
  - intros. now apply debug_invalid_response.
  - intros. now apply debug_response_too_long.
  - intros. now apply debug_bit_timeout.
  - intros b' level t1 t2 t3 ds data Hb Hl Hf. apply wp_debug_read_validate.
    + intros E. apply debug_checksum; auto using ran_stop.
    + intros E. apply debug_validated; auto using ran_stop.
Qed.

Lemma read_debug : read true = dht11_sensor_debug_read.
Proof. reflexivity. Qed.

Lemma read_plain : read false = dht11_sensor_read.
Proof. reflexivity. Qed.

Lemma read_frame_debug : read_frame true = debug_read_frame.
Proof. reflexivity. Qed.

Lemma read_frame_plain : read_frame false = sensor_read_frame.
Proof. reflexivity. Qed.

(** Neither read falls off its end: a run returns or needs more fuel. *)
Definition outcome (debug : bool) (s : St) : bool -> Site -> St -> Prop :=
  if debug then debug_outcome s else read_outcome s.

Lemma read_returns debug fuel s :
  wp (read debug fuel) (fun _ _ => False) (outcome debug s) s.
Proof.
  destruct debug.
  - rewrite read_debug. exact (dht11_sensor_debug_read_outcome fuel s).
  - rewrite read_plain. exact (dht11_sensor_read_outcome fuel s).
Qed.

Lemma read_never_continues debug fuel s a s' : read debug fuel s <> Continue a s'.
Proof.
  intros E. exact (wp_continue _ _ _ _ _ _ (read_returns debug fuel s) E).
Qed.

(** What a run leaves in the application fields. *)
Definition result_of {A} (r : result A) : option (bool * Site * Z * Z)%type :=
  match r with
  | Returned v site s => Some (v, site, humidity (app s), temperature (app s))
  | _ => None
  end.

Definition validate (debug : bool) (data : list Z) : M unit :=
  if debug then debug_read_validate data else sensor_read_validate data.

Lemma read_after_frame debug fuel s data s1 :
  read_frame debug fuel s = Continue data s1 ->
  read debug fuel s = validate debug data s1.
Proof.
  intros H. destruct debug.
  - rewrite read_debug. rewrite read_frame_debug in H.
    unfold dht11_sensor_debug_read, bind. now rewrite H.
  - rewrite read_plain. rewrite read_frame_plain in H.
    unfold dht11_sensor_read, bind. now rewrite H.
Qed.

(** The outcome of the validation part alone, in either mode. *)
Inductive validated (debug : bool) (data : list Z) (s1 : St)
  : bool -> Site -> St -> Prop :=
| validated_mismatch s' :
    frame_checksum data <> byte_at data 4 ->
    board s' = hal (Hal_notification sequence_blink_stop) (board s1) ->
    temperature (app s') = temperature (app s1) ->
    humidity (app s') = humidity (app s1) ->
    validated debug data s1 false ChecksumMismatch s'
| validated_decoded s' :
    frame_checksum data = byte_at data 4 ->
    board s' = hal (Hal_notification sequence_blink_stop) (board s1) ->
    humidity (app s') = byte_at data 0 ->
    temperature (app s')
    = (if debug then byte_at data 2 else sign_magnitude (byte_at data 2)) ->
    validated debug data s1
      (negb (out_of_range (humidity (app s')) (temperature (app s'))))
      (verdict (humidity (app s')) (temperature (app s'))) s'.

Lemma validate_outcome (debug : bool) data s1 :
  wp (validate debug data) (fun _ _ => False) (validated debug data s1) s1.
Proof.
  destruct debug; unfold validate.
  - destruct s1 as [b a t].
    change (mkSt b a t) with (with_board b (log_all [] (mkSt b a t))) at 2.
    apply wp_debug_read_validate.
    + intros E.
      destruct (app_log_all
          ([] ++ [entry14 data; verdict_entry ChecksumMismatch]) (mkSt b a t))
          as (Ht & Hh & _).
      apply validated_mismatch; auto.
    + intros E h t0.
      match goal with
      | |- validated _ _ _ _ _ (with_board ?b' (log_all ?es ?s0)) =>
          destruct (app_log_all es s0) as (Ht & Hh & _);
          set (s' := with_board b' (log_all es s0)) in *
      end.
      assert (Hh' : humidity (app s') = h) by exact Hh.
      assert (Ht' : temperature (app s') = t0) by exact Ht.
      rewrite <- Hh', <- Ht'. apply validated_decoded; auto.
  - apply wp_sensor_read_validate.
    + intros E. apply validated_mismatch; auto.
    + intros E h t.
      apply (validated_decoded false data s1
               (with_board (hal (Hal_notification sequence_blink_stop) (board s1))
                           (stored h t s1))); auto.
Qed.

Lemma validate_returns (debug : bool) data s1 :
  exists v site s', validate debug data s1 = Returned v site s'.
Proof.
  destruct debug; unfold validate.
  - unfold debug_read_validate.
    cbv beta iota zeta delta [bind log_msg log_append].
    destruct (negb _).
    + cbv beta iota zeta delta [notification_message call on_board return_].
      eauto.
    + cbv beta iota zeta delta [set_humidity set_temperature get_humidity
                                get_temperature].
      destruct (out_of_range _ _);
        cbv beta iota zeta delta [notification_message call on_board return_];
        eauto.
  - rewrite sensor_read_validate_run. cbv zeta. destruct (negb _); eauto.
Qed.

(** ** Properties of the frame validation *)

(** The state in which the frame phase hands over to validation, on a
    board where it completes. *)
Definition after_frame (debug : bool) (b : Board) : St :=
  match read_frame debug 1 (start b) with
  | Continue _ s1 => s1
  | _ => start b
  end.

(** C2.  Checksum law, for both reads: when the frame phase has assembled
    the bytes (h, hf, t, tf, c), the read goes past the checksum test (it
    returns from the range check or from the end of the function) if
    c = (h + hf + t + tf) mod 256, and otherwise returns false
    from the checksum-mismatch return; nothing but the blink-stop
    notification happens on the board after the frame was read, so the
    read is not tried again. *)
Theorem C2_checksum_law (debug : bool) (fuel : nat) (s s1 : St) (h hf t tf c : Z) :
  read_frame debug fuel s = Continue [h; hf; t; tf; c] s1 ->
  exists v site s',
    read debug fuel s = Returned v site s'
    /\ (c = (h + hf + t + tf) mod 256 -> site = Complete \/ site = OutOfRange)
    /\ (c <> (h + hf + t + tf) mod 256 ->
        v = false /\ site = ChecksumMismatch
        /\ board s' = hal (Hal_notification sequence_blink_stop) (board s1)).
Proof.
  intros H. rewrite (read_after_frame _ _ _ _ _ H).
  pose proof (validate_outcome debug [h; hf; t; tf; c] s1) as W. unfold wp in W.
  destruct (validate debug [h; hf; t; tf; c] s1)
    as [a s'|v site s'|] eqn:HF; [contradiction| |].
  - exists v, site, s'. split; [reflexivity|].
    assert (Hc : frame_checksum [h; hf; t; tf; c] = (h + hf + t + tf) mod 256)
      by reflexivity.
    assert (H4 : byte_at [h; hf; t; tf; c] 4 = c) by reflexivity.
    destruct W as [s' E Hb _ _ | s' E Hb _ _]; rewrite Hc, H4 in E.
    + split; [intros; congruence | auto].
    + split.
      * intros _. unfold verdict. destruct (out_of_range _ _); auto.
      * intros N. congruence.
  - destruct (validate_returns debug [h; hf; t; tf; c] s1) as (v & site & s' & E).
    rewrite E in HF. discriminate.
Qed.

(** A sensor sending 32 00 18 00 4B (checksum off by one) is rejected. *)
Lemma C2_checksum_law_witness :
  exists v site s',
    read false 1 (start (sensor_board [] [50; 0; 24; 0; 75])) = Returned v site s'
    /\ (75 = (50 + 0 + 24 + 0) mod 256 -> site = Complete \/ site = OutOfRange)
    /\ (75 <> (50 + 0 + 24 + 0) mod 256 ->
        v = false /\ site = ChecksumMismatch
        /\ board s'
           = hal (Hal_notification sequence_blink_stop)
                 (board (after_frame false (sensor_board [] [50; 0; 24; 0; 75])))).
Proof.
  apply (C2_checksum_law false 1 (start (sensor_board [] [50; 0; 24; 0; 75]))
           (after_frame false (sensor_board [] [50; 0; 24; 0; 75]))).
  vm_compute. reflexivity.
Defined.

(** The end-to-end scenarios of the checksum law, on both reads. *)
Example checksum_scenarios :
  result_of (read false 1 (start (sensor_board [] [50; 0; 24; 0; 74])))
  = Some (true, Complete, 50, 24)
  /\ result_of (read true 1 (start (sensor_board [true] [50; 0; 24; 0; 74])))
     = Some (true, Complete, 50, 24)
  /\ result_of (read false 1 (start (sensor_board [] [50; 0; 24; 0; 75])))
     = Some (false, ChecksumMismatch, 0, 0)
  /\ result_of (read true 1 (start (sensor_board [true] [50; 0; 24; 0; 75])))
     = Some (false, ChecksumMismatch, 0, 0).
Proof. repeat split; vm_compute; reflexivity. Qed.

(** C3.  Range check, for both reads: once the checksum has passed, the
    read returns true exactly when the values it stored satisfy
    humidity <= 100 and -40 <= temperature <= 60, and otherwise returns
    false from the out-of-range return.  The boundary values are decided
    as stated: humidity 100 and temperatures -40 and 60 are accepted,
    humidity 101 and temperatures -41 and 61 are refused (frames sent by a
    simulated sensor; the debug read cannot store a negative temperature,
    so its boundaries are shown at 100, 101, 60 and 61). *)
Theorem C3_range_check :
  (forall (debug : bool) (fuel : nat) (s s1 : St) (data : list Z),
      read_frame debug fuel s = Continue data s1 ->
      frame_checksum data = byte_at data 4 ->
      exists v site s',
        read debug fuel s = Returned v site s'
        /\ humidity (app s') = byte_at data 0
        /\ (v = true <->
            humidity (app s') <= 100 /\ -40 <= temperature (app s') <= 60)
        /\ site = (if v then Complete else OutOfRange))
  /\ result_of (read false 1 (start (sensor_board [] [100; 0; 168; 0; 12])))
     = Some (true, Complete, 100, -40)
  /\ result_of (read false 1 (start (sensor_board [] [101; 0; 168; 0; 13])))
     = Some (false, OutOfRange, 101, -40)
  /\ result_of (read false 1 (start (sensor_board [] [100; 0; 169; 0; 13])))
     = Some (false, OutOfRange, 100, -41)
  /\ result_of (read false 1 (start (sensor_board [] [100; 0; 60; 0; 160])))
     = Some (true, Complete, 100, 60)
  /\ result_of (read false 1 (start (sensor_board [] [100; 0; 61; 0; 161])))
     = Some (false, OutOfRange, 100, 61)
  /\ result_of (read true 1 (start (sensor_board [true] [100; 0; 60; 0; 160])))
     = Some (true, Complete, 100, 60)
  /\ result_of (read true 1 (start (sensor_board [true] [101; 0; 60; 0; 161])))
     = Some (false, OutOfRange, 101, 60)
  /\ result_of (read true 1 (start (sensor_board [true] [100; 0; 61; 0; 161])))
     = Some (false, OutOfRange, 100, 61).
Proof.
  split; [|repeat split; vm_compute; reflexivity].
  intros debug fuel s s1 data H E. rewrite (read_after_frame _ _ _ _ _ H).
  pose proof (validate_outcome debug data s1) as W. unfold wp in W.
  destruct (validate_returns debug data s1) as (v & site & s' & HF).
  rewrite HF in W. exists v, site, s'. split; [exact HF|].
  destruct W as [s' N _ _ _ | s' _ _ Hh _]; [congruence|].
  split; [exact Hh|]. unfold verdict, out_of_range. split.
  - destruct (Z.gtb_spec (humidity (app s')) 100),
      (Z.gtb_spec (temperature (app s')) 60),
      (Z.ltb_spec (temperature (app s')) (-40)); simpl; split;
      intros; try discriminate; try lia; reflexivity.
  - destruct (_ || _ || _); reflexivity.
Qed.

Lemma C3_range_check_witness :
  exists v site s',
    read false 1 (start (sensor_board [] [100; 0; 168; 0; 12])) = Returned v site s'
    /\ humidity (app s') = byte_at [100; 0; 168; 0; 12] 0
    /\ (v = true <->
        humidity (app s') <= 100 /\ -40 <= temperature (app s') <= 60)
    /\ site = (if v then Complete else OutOfRange).
Proof.
  apply (proj1 C3_range_check false 1%nat (start (sensor_board [] [100; 0; 168; 0; 12]))
           (after_frame false (sensor_board [] [100; 0; 168; 0; 12]))).
  - vm_compute. reflexivity.
  - vm_compute. reflexivity.
Defined.

(** ** Decoding of the temperature byte *)

(** In both reads the stored temperature is a function of data[2]: the
    plain read takes bit 7 as a sign, the debug read stores the byte as it
    is and so never stores a negative temperature. *)
Lemma stored_temperature (debug : bool) fuel s s1 data :
  read_frame debug fuel s = Continue data s1 ->
  frame_checksum data = byte_at data 4 ->
  exists v site s',
    read debug fuel s = Returned v site s'
    /\ temperature (app s')
       = (if debug then byte_at data 2
          else if Z.land (byte_at data 2) 128 =? 0 then byte_at data 2
               else - (Z.land (byte_at data 2) 127)).
Proof.
  intros H E. rewrite (read_after_frame _ _ _ _ _ H).
  pose proof (validate_outcome debug data s1) as W. unfold wp in W.
  destruct (validate_returns debug data s1) as (v & site & s' & HF).
  rewrite HF in W. exists v, site, s'. split; [exact HF|].
  destruct W as [s' N _ _ _ | s' _ _ _ Ht]; [congruence|].
  rewrite Ht. unfold sign_magnitude. destruct debug; [reflexivity|].
  destruct (Z.land _ 128 =? 0); reflexivity.
Qed.

(** C1.  The frame 28 00 85 00 AD (humidity 40, temperature byte 0x85)
    passes the checksum in both reads.  The plain read decodes sign and
    magnitude and returns true with temperature -5.  The debug read stores
    133 and returns false from the out-of-range return.  With temperature
    byte 0x18 both store 24. *)
Theorem C1_debug_read_ignores_sign :
  result_of (read false 1 (start (sensor_board [] [40; 0; 133; 0; 173])))
  = Some (true, Complete, 40, -5)
  /\ result_of (read true 1 (start (sensor_board [true] [40; 0; 133; 0; 173])))
     = Some (false, OutOfRange, 40, 133)
  /\ result_of (read false 1 (start (sensor_board [] [50; 0; 24; 0; 74])))
     = Some (true, Complete, 50, 24)
  /\ result_of (read true 1 (start (sensor_board [true] [50; 0; 24; 0; 74])))
     = Some (true, Complete, 50, 24).
Proof. repeat split; vm_compute; reflexivity. Qed.

(** ** The reading after a failed read *)

(** A reading taken earlier: 24 degrees, 50 percent. *)
Definition earlier_reading : DHT11App := mkApp 24 50 true EmptyString.

Definition start_from (a : DHT11App) (b : Board) : St := mkSt b a (mkTrace 0 [] []).

(** Failures other than the range check leave the two fields alone. *)
Definition same_reading (s s' : St) : Prop :=
  temperature (app s') = temperature (app s)
  /\ humidity (app s') = humidity (app s).

Lemma same_reading_logged b es s :
  same_reading s (with_board b (log_all es (cleared s))).
Proof.
  unfold same_reading. cbn [with_board app].
  destruct (app_log_all es (cleared s)) as (Ht & Hh & _).
  rewrite Ht, Hh. split; reflexivity.
Qed.

Lemma same_reading_with_board b s : same_reading s (with_board b s).
Proof. split; reflexivity. Qed.

Lemma outcome_keeps_reading debug s v site s' :
  outcome debug s v site s' ->
  v = false -> site <> OutOfRange -> same_reading s s'.
Proof.
  intros O. destruct debug; cbn [outcome] in O; destruct O; intros Hv N;
    first [ apply same_reading_logged
          | apply same_reading_with_board
          | exfalso; apply N; unfold verdict;
            (destruct (out_of_range h t); [reflexivity | discriminate Hv]) ].
Qed.

Lemma read_outcome_of debug fuel s v site s' :
  read debug fuel s = Returned v site s' -> outcome debug s v site s'.
Proof. exact (wp_returned _ _ _ _ _ _ _ (read_returns debug fuel s)). Qed.

Lemma failed_read_keeps_reading debug fuel s site s' :
  read debug fuel s = Returned false site s' ->
  site <> OutOfRange ->
  temperature (app s') = temperature (app s)
  /\ humidity (app s') = humidity (app s).
Proof.
  intros H N. apply read_outcome_of in H.
  exact (outcome_keeps_reading _ _ _ _ _ H eq_refl N).
Qed.

(** C7.  With an earlier reading of 24 degrees and 50 percent in the
    application, a frame 65 00 1E 00 83 (humidity 101, temperature 30,
    checksum correct) makes either read return false from the range
    check, and leaves humidity 101 and temperature 30 in the application
    fields. *)
Theorem C7_rejected_frame_overwrites_reading :
  result_of (read false 1
               (start_from earlier_reading (sensor_board [] [101; 0; 30; 0; 131])))
  = Some (false, OutOfRange, 101, 30)
  /\ result_of (read true 1
                  (start_from earlier_reading
                              (sensor_board [true] [101; 0; 30; 0; 131])))
     = Some (false, OutOfRange, 101, 30).
Proof. repeat split; vm_compute; reflexivity. Qed.

(** ** Bit classification and packing *)

(** The frame buffer and the pulse history a run of a data-bit iteration
    ends with. *)
Definition bit_result {A} (frame : A -> list Z) (r : result A)
  : option (list Z * list Z) :=
  match r with
  | Continue a s => Some (frame a, pulses (board s))
  | _ => None
  end.

(** A board for a single data bit: the line is high at the first poll and
    low at the second, and the counter advances by [cycles] in between. *)
Definition one_bit_board (cycles : Z) : Board :=
  board_of [true; false] false [0; cycles].

(** C4.  In both reads, an iteration that measures the whole-microsecond
    duration d stores a 1 at the bit's position exactly when d > 40, and
    leaves the frame buffer as it was when d <= 40.  Durations 41, 40 and
    0 microseconds (and 40 microseconds plus 63 cycles) give bits 1, 0, 0
    (and 0). *)
Theorem C4_bit_threshold :
  (forall fuel i data s data' s',
      0 <= i < 40 -> frame_ok data ->
      read_bit fuel i data s = Continue data' s' ->
      exists d,
        pulses (board s') = pulses (board s) ++ [d]
        /\ data' = (if d >? 40 then or_assign data (i / 8) (7 - i mod 8) else data)
        /\ data_bit data' i = (d >? 40) || data_bit data i)
  /\ (forall fuel i data bits_read s data' bits_read' s',
         0 <= i < 40 -> frame_ok data ->
         debug_read_bit fuel i (data, bits_read) s = Continue (data', bits_read') s' ->
         exists d,
           pulses (board s') = pulses (board s) ++ [d]
           /\ data' = (if d >? 40 then or_assign data (i / 8) (7 - i mod 8) else data)
           /\ data_bit data' i = (d >? 40) || data_bit data i)
  /\ bit_result id (read_bit 1 0 zero_frame (start (one_bit_board (64 * 41))))
     = Some ([128; 0; 0; 0; 0], [41])
  /\ bit_result id (read_bit 1 0 zero_frame (start (one_bit_board (64 * 40))))
     = Some ([0; 0; 0; 0; 0], [40])
  /\ bit_result id (read_bit 1 0 zero_frame (start (one_bit_board (64 * 40 + 63))))
     = Some ([0; 0; 0; 0; 0], [40])
  /\ bit_result id (read_bit 1 0 zero_frame (start (one_bit_board 0)))
     = Some ([0; 0; 0; 0; 0], [0])
  /\ bit_result fst (debug_read_bit 1 0 (zero_frame, 0) (start (one_bit_board (64 * 41))))
     = Some ([128; 0; 0; 0; 0], [41])
  /\ bit_result fst (debug_read_bit 1 0 (zero_frame, 0) (start (one_bit_board (64 * 40))))
     = Some ([0; 0; 0; 0; 0], [40])
  /\ bit_result fst (debug_read_bit 1 0 (zero_frame, 0) (start (one_bit_board 0)))
     = Some ([0; 0; 0; 0; 0], [0]).
Proof.
  assert (Hbit : forall i data d, 0 <= i < 40 -> frame_ok data ->
            data_bit (if d >? 40 then or_assign data (i / 8) (7 - i mod 8) else data) i
            = (d >? 40) || data_bit data i).
  { intros i data d Hi Hok. destruct (d >? 40); [|reflexivity].
    rewrite or_assign_bit by auto. now rewrite Z.eqb_refl. }
  split; [|split; [|repeat split; vm_compute; reflexivity]].
  - intros fuel i data s data' s' Hi Hok H.
    refine (wp_continue _
              (fun data' s' => exists d,
                   pulses (board s') = pulses (board s) ++ [d]
                   /\ data' = (if d >? 40
                               then or_assign data (i / 8) (7 - i mod 8) else data)
                   /\ data_bit data' i = (d >? 40) || data_bit data i)
              (fun _ _ _ => True) _ _ _ _ H).
    apply wp_read_bit; auto.
    intros b' d Hd. exists d. cbn [board].
    split; [exact (sampled_pulses _ _ _ Hd)|]. split; auto.
  - intros fuel i data bits_read s data' bits_read' s' Hi Hok H.
    refine (wp_continue _
              (fun acc s' => exists d,
                   pulses (board s') = pulses (board s) ++ [d]
                   /\ fst acc = (if d >? 40
                                 then or_assign data (i / 8) (7 - i mod 8) else data)
                   /\ data_bit (fst acc) i = (d >? 40) || data_bit data i)
              (fun _ _ _ => True) _ _ _ _ H).
    apply wp_debug_read_bit; auto.
    intros b' d Hd. exists d. cbn [board with_board fst].
    split; [exact (sampled_pulses _ _ _ Hd)|]. split; auto.
Qed.

Lemma C4_bit_threshold_witness :
  exists d,
    pulses (board (match read_bit 1 0 zero_frame (start (one_bit_board (64 * 41))) with
                   | Continue _ s' => s'
                   | _ => start (one_bit_board 0)
                   end))
    = pulses (board (start (one_bit_board (64 * 41)))) ++ [d]
    /\ [128; 0; 0; 0; 0]
       = (if d >? 40 then or_assign zero_frame (0 / 8) (7 - 0 mod 8) else zero_frame)
    /\ data_bit [128; 0; 0; 0; 0] 0 = (d >? 40) || data_bit zero_frame 0.
Proof.
  apply (proj1 C4_bit_threshold 1%nat 0 zero_frame (start (one_bit_board (64 * 41)))).
  - lia.
  - apply zero_frame_ok.
  - vm_compute. reflexivity.
Defined.

(** C5.  In both reads, a frame phase that completes has measured exactly
    40 pulses and hands on a 5-byte frame in which, for every bit index i
    in 0..39, bit 7 - i mod 8 of byte i / 8 is 1 exactly when the (i+1)-th
    pulse was classified as 1 (its duration exceeds 40), and 0 otherwise. *)
Theorem C5_frame_packing (debug : bool) (fuel : nat) (s s1 : St) (data : list Z) :
  read_frame debug fuel s = Continue data s1 ->
  exists ds,
    pulses (board s1) = pulses (board s) ++ ds
    /\ List.length ds = 40%nat
    /\ List.length data = 5%nat
    /\ Forall (fun x => 0 <= x < 256) data
    /\ forall i, 0 <= i < 40 ->
         Z.testbit (byte_at data (i / 8)) (7 - i mod 8)
         = (nth (Z.to_nat i) ds 0 >? 40).
Proof.
  intros H.
  assert (G : forall b' ds data0, ran (board s) b' ds -> List.length ds = 40%nat ->
              frame_of_pulses data0 ds ->
              exists ds0,
                pulses b' = pulses (board s) ++ ds0
                /\ List.length ds0 = 40%nat
                /\ List.length data0 = 5%nat
                /\ Forall (fun x => 0 <= x < 256) data0
                /\ forall i, 0 <= i < 40 ->
                     Z.testbit (byte_at data0 (i / 8)) (7 - i mod 8)
                     = (nth (Z.to_nat i) ds0 0 >? 40)).
  { intros b' ds data0 Hr Hl [[Hlen Hb] Hbits]. exists ds.
    split; [exact (ran_pulses _ _ _ Hr)|]. repeat split; auto.
    intros i Hi. specialize (Hbits (Z.to_nat i) ltac:(lia)).
    rewrite Z2Nat.id in Hbits by lia. exact Hbits. }
  set (Q := fun (data0 : list Z) (s0 : St) =>
              exists ds0,
                pulses (board s0) = pulses (board s) ++ ds0
                /\ List.length ds0 = 40%nat
                /\ List.length data0 = 5%nat
                /\ Forall (fun x => 0 <= x < 256) data0
                /\ forall i, 0 <= i < 40 ->
                     Z.testbit (byte_at data0 (i / 8)) (7 - i mod 8)
                     = (nth (Z.to_nat i) ds0 0 >? 40)).
  destruct debug.
  - rewrite read_frame_debug in H.
    refine (wp_continue _ Q (fun _ _ _ => True) _ _ _ _ H).
    apply wp_debug_read_frame; try (intros; exact I).
    intros b' level t1 t2 t3 ds data0 Hr Hl Hf. exact (G _ _ _ Hr Hl Hf).
  - rewrite read_frame_plain in H.
    refine (wp_continue _ Q (fun _ _ _ => True) _ _ _ _ H).
    apply wp_sensor_read_frame; try (intros; exact I).
    intros b' ds data0 Hr Hl Hf. exact (G _ _ _ Hr Hl Hf).
Qed.

Lemma C5_frame_packing_witness :
  exists ds,
    pulses (board (after_frame true (sensor_board [true] [50; 0; 24; 0; 74])))
    = pulses (board (start (sensor_board [true] [50; 0; 24; 0; 74]))) ++ ds
    /\ List.length ds = 40%nat
    /\ List.length [50; 0; 24; 0; 74] = 5%nat
    /\ Forall (fun x => 0 <= x < 256) [50; 0; 24; 0; 74]
    /\ forall i, 0 <= i < 40 ->
         Z.testbit (byte_at [50; 0; 24; 0; 74] (i / 8)) (7 - i mod 8)
         = (nth (Z.to_nat i) ds 0 >? 40).
Proof.
  apply (C5_frame_packing true 1 (start (sensor_board [true] [50; 0; 24; 0; 74]))).
  vm_compute. reflexivity.
Defined.

(** ** The trace of a failing debug read *)

Transparent log_state.


Opaque log_state.






Definition state_of {A} (r : result A) (otherwise : St) : St :=
  match r with
  | Returned _ _ s => s
  | Continue _ s => s
  | OutOfFuel => otherwise
  end.

(** A line that stays high: the sensor never answers. *)
Definition silent_board : Board := board_of [] true [].





(** ** Bit lines of the debug trace *)






(** ** The log buffer stays within bounds *)

Lemma outcome_log_size s v site s' :
  debug_outcome s v site s' ->
  exists b' es s0,
    s' = with_board b' (log_all es s0)
    /\ log_ok s0 /\ log_pos (trace s0) = 0 /\ log_size es <= 1729.
Proof.
  intros O. destruct O;
    match goal with
    | |- context [with_board ?b (log_all ?es ?s0)] => exists b, es, s0
    end;
    (split; [reflexivity|]);
    (split; [auto using cleared_ok, stored_ok|]);
    (split; [reflexivity|]);
    rewrite ?log_size_app;
    repeat match goal with
           | |- context [log_size (header ?l)] =>
               pose proof (header_size l); generalize dependent (log_size (header l));
               intros
           | |- context [log_size (data_phase_log ?l ?a ?b ?c ?d)] =>
               pose proof (data_phase_log_size l a b c d ltac:(lia));
               generalize dependent (log_size (data_phase_log l a b c d)); intros
           | |- context [log_size (trailer ?d)] =>
               pose proof (trailer_size d); generalize dependent (log_size (trailer d));
               intros
           end;
    unfold log_size, fold_right;
    repeat match goal with
           | |- context [String.length (verdict_entry ?x)] =>
               pose proof (verdict_entry_length x);
               generalize dependent (String.length (verdict_entry x)); intros
           | |- context [String.length (entry7 ?x)] =>
               pose proof (entry7_length x);
               generalize dependent (String.length (entry7 x)); intros
           | |- context [String.length (entry8 ?x)] =>
               pose proof (entry8_length x);
               generalize dependent (String.length (entry8 x)); intros
           | |- context [String.length (entry9 ?x)] =>
               pose proof (entry9_length x);
               generalize dependent (String.length (entry9 x)); intros
           | |- context [String.length (entry14 ?x)] =>
               pose proof (entry14_length x);
               generalize dependent (String.length (entry14 x)); intros
           | |- context [String.length (entry15 ?x)] =>
               pose proof (entry15_length x);
               generalize dependent (String.length (entry15 x)); intros
           | |- context [String.length (entry16 ?x)] =>
               pose proof (entry16_length x);
               generalize dependent (String.length (entry16 x)); intros
           end;
    cbn [String.length wiring_hint line append nl]; lia.
Qed.

Lemma truncate_bound s : forall n, 0 <= n -> Z.of_nat (String.length (truncate n s)) <= n.
Proof.
  induction s as [|c s IH]; intros n Hn; simpl; [lia|].
  destruct (Z.leb_spec n 0); simpl; [lia|].
  specialize (IH (n - 1) ltac:(lia)). lia.
Qed.

Transparent log_state.

(** What one call of the logging statement leaves in the buffer when it
    is made at an offset inside it: the old text followed by as much of
    the entry as fits before the last byte, which holds the NUL. *)
Lemma log_state_truncates e s :
  log_pos (trace s) = Z.of_nat (String.length (debug_log (app s))) ->
  log_pos (trace s) < DEBUG_LOG_SIZE ->
  debug_log (app (log_state e s))
  = (debug_log (app s) ++ truncate (DEBUG_LOG_SIZE - 1 - log_pos (trace s)) e)%string
  /\ Z.of_nat (String.length (debug_log (app (log_state e s)))) < DEBUG_LOG_SIZE.
Proof.
  intros Hp Hlt. unfold DEBUG_LOG_SIZE in *.
  assert (Hsz : uint32 (2048 - log_pos (trace s)) = 2048 - log_pos (trace s))
    by (apply uint32_small; lia).
  assert (E : debug_log (app (log_state e s))
              = (debug_log (app s) ++ truncate (2048 - 1 - log_pos (trace s)) e)%string).
  { unfold log_state, DEBUG_LOG_SIZE, snprintf. cbn [app debug_log fst].
    rewrite Hsz.
    destruct (Z.leb_spec (log_pos (trace s)) 2048); [|lia].
    destruct (Z.eqb_spec (2048 - log_pos (trace s)) 0); [lia|].
    f_equal. f_equal. lia. }
  split; [exact E|]. rewrite E, length_append.
  pose proof (truncate_bound e (2048 - 1 - log_pos (trace s)) ltac:(lia)). lia.
Qed.

Opaque log_state.

(** C9.  In every debug read that returns, each call of the logging
    statement was made at an offset within the buffer (at most its size,
    2048), one offset per entry; the final offset is below the size, and
    the buffer holds every entry in full.  Independently of the read, a
    call made at an offset inside the buffer stores only the part of the
    entry that fits and leaves the text shorter than the buffer. *)
Theorem C9_log_within_buffer :
  (forall fuel s v site s',
      dht11_sensor_debug_read fuel s = Returned v site s' ->
      Forall (fun o => 0 <= o <= DEBUG_LOG_SIZE) (log_offsets (trace s'))
      /\ List.length (log_offsets (trace s')) = List.length (log_entries (trace s'))
      /\ log_pos (trace s') < DEBUG_LOG_SIZE
      /\ debug_log (app s') = log_text (log_entries (trace s'))
      /\ Z.of_nat (String.length (debug_log (app s'))) < DEBUG_LOG_SIZE)
  /\ (forall e s,
         log_pos (trace s) = Z.of_nat (String.length (debug_log (app s))) ->
         log_pos (trace s) < DEBUG_LOG_SIZE ->
         debug_log (app (log_state e s))
         = (debug_log (app s)
            ++ truncate (DEBUG_LOG_SIZE - 1 - log_pos (trace s)) e)%string
         /\ Z.of_nat (String.length (debug_log (app (log_state e s))))
            < DEBUG_LOG_SIZE).
Proof.
  split; [|exact log_state_truncates].
  intros fuel s v site s' H. apply (read_outcome_of true) in H. cbn [outcome] in H.
  destruct (outcome_log_size _ _ _ _ H) as (b' & es & s0 & -> & Hok & Hp0 & Hsz).
  clear H.
  assert (Hfit : log_pos (trace s0) + log_size es < DEBUG_LOG_SIZE)
    by (rewrite Hp0; unfold DEBUG_LOG_SIZE; lia).
  destruct (log_all_ok es s0 Hok Hfit) as [Hok' He].
  apply (with_board_ok b') in Hok'. destruct Hok' as [Hp Ht Ho Hc].
  assert (Hs : log_size (log_entries (trace (with_board b' (log_all es s0))))
               <= 1729).
  { cbn [with_board trace]. rewrite He, log_size_app.
    destruct Hok as [Hp1 _ _ _]. rewrite <- Hp1, Hp0. lia. }
  unfold DEBUG_LOG_SIZE. repeat split.
  - eapply Forall_impl; [|exact Ho]. cbv beta. intros a Ha. lia.
  - exact Hc.
  - lia.
  - exact Ht.
  - rewrite Ht, log_text_length. lia.
Qed.

Lemma C9_log_within_buffer_witness :
  Forall (fun o => 0 <= o <= DEBUG_LOG_SIZE)
         (log_offsets
            (trace (state_of
                      (dht11_sensor_debug_read
                         1 (start (sensor_board [true] [50; 0; 24; 0; 74])))
                      (start silent_board))))
  /\ log_pos
       (trace (state_of
                 (dht11_sensor_debug_read
                    1 (start (sensor_board [true] [50; 0; 24; 0; 74])))
                 (start silent_board)))
     = 1130.
Proof.
  split.
  - apply (proj1 C9_log_within_buffer 1%nat
             (start (sensor_board [true] [50; 0; 24; 0; 74])) true Complete).
    vm_compute. reflexivity.
  - vm_compute. reflexivity.
Defined.

(** ** The 200 microsecond cutoff of the duration measurement *)

(** The board after [p] more pin reads and [c] more counter reads. *)
Definition advance (p c : nat) (b : Board) : Board :=
  mkBoard (pin_level b) (cyccnt b) (p + pin_reads b) (c + cyc_reads b)
          (cyccntena b) (hal_calls b) (pulses b).

Lemma measure_loop_S fuel start_cycles b :
  measure_loop (S fuel) start_cycles b
  = if pin_level b (pin_reads b) then
      if uint32 (uint32 (cyccnt b (cyc_reads b)) - start_cycles) / 64 >? 200
      then Some (advance 1 1 b)
      else measure_loop fuel start_cycles (advance 1 1 b)
    else Some (advance 1 0 b).
Proof. reflexivity. Qed.

Lemma advance_advance p c p' c' b :
  advance p c (advance p' c' b) = advance (p + p') (c + c') b.
Proof. unfold advance. simpl. f_equal; lia. Qed.

(** The loop leaves by its [break] at the first poll whose elapsed time
    exceeds 200 microseconds, if the line is still high then. *)
Lemma measure_loop_cutoff start_cycles n :
  forall fuel b,
  (n < fuel)%nat ->
  (forall k, (k <= n)%nat -> pin_level b (pin_reads b + k) = true) ->
  (forall k, (k < n)%nat ->
     uint32 (uint32 (cyccnt b (cyc_reads b + k)) - start_cycles) / 64 <= 200) ->
  uint32 (uint32 (cyccnt b (cyc_reads b + n)) - start_cycles) / 64 > 200 ->
  measure_loop fuel start_cycles b = Some (advance (S n) (S n) b).
Proof.
  induction n as [|n IH]; intros fuel b Hf Hpin Hlow Hcut;
    (destruct fuel as [|fuel]; [lia|]); rewrite measure_loop_S.
  - specialize (Hpin 0%nat ltac:(lia)). rewrite Nat.add_0_r in Hpin, Hcut.
    rewrite Hpin. destruct (Z.gtb_spec
      (uint32 (uint32 (cyccnt b (cyc_reads b)) - start_cycles) / 64) 200);
      [reflexivity | lia].
  - pose proof (Hpin 0%nat ltac:(lia)) as Hp0. rewrite Nat.add_0_r in Hp0.
    pose proof (Hlow 0%nat ltac:(lia)) as Hl0. rewrite Nat.add_0_r in Hl0.
    rewrite Hp0. destruct (Z.gtb_spec
      (uint32 (uint32 (cyccnt b (cyc_reads b)) - start_cycles) / 64) 200);
      [lia|].
    rewrite (IH fuel (advance 1 1 b)).
    + rewrite advance_advance. do 2 f_equal; lia.
    + lia.
    + intros k Hk. cbn [advance pin_level pin_reads].
      replace (1 + pin_reads b + k)%nat with (pin_reads b + S k)%nat by lia.
      apply Hpin. lia.
    + intros k Hk. cbn [advance cyccnt cyc_reads].
      replace (1 + cyc_reads b + k)%nat with (cyc_reads b + S k)%nat by lia.
      apply Hlow. lia.
    + cbn [advance cyccnt cyc_reads].
      replace (1 + cyc_reads b + n)%nat with (cyc_reads b + S n)%nat by lia.
      exact Hcut.
Qed.

(** The measurement of one bit when the loop leaves by the cutoff. *)
Lemma bit_measure_cutoff fuel n b1 a tr :
  let start_cycles := uint32 (cyccnt b1 (cyc_reads b1)) in
  let elapsed k := uint32 (uint32 (cyccnt b1 (cyc_reads b1 + 1 + k)) - start_cycles) in
  (forall k, (k <= n)%nat -> pin_level b1 (pin_reads b1 + k) = true) ->
  (forall k, (k < n)%nat -> elapsed k / 64 <= 200) ->
  elapsed n / 64 > 200 ->
  (n < fuel)%nat ->
  exists b',
    bit_measure fuel (mkSt b1 a tr) = Continue (elapsed (S n) / 64) (mkSt b' a tr)
    /\ pulses b' = pulses b1 ++ [elapsed (S n) / 64]
    /\ pin_reads b' = (pin_reads b1 + S n)%nat.
Proof.
  intros start_cycles elapsed Hpin Hlow Hcut Hf.
  destruct (dwt_enable_frame b1) as (E1 & E2 & E3 & E4 & E5 & E6).
  set (b2 := advance 0 1 (dwt_enable b1)).
  assert (Hm : measure_loop fuel start_cycles b2 = Some (advance (S n) (S n) b2)).
  { apply measure_loop_cutoff; auto; unfold b2; cbn [advance pin_level pin_reads
      cyccnt cyc_reads]; rewrite ?E1, ?E2, ?E5, ?E6.
    - intros k Hk. apply Hpin. exact Hk.
    - intros k Hk. replace (1 + cyc_reads b1 + k)%nat
        with (cyc_reads b1 + 1 + k)%nat by lia. apply Hlow. exact Hk.
    - replace (1 + cyc_reads b1 + n)%nat with (cyc_reads b1 + 1 + n)%nat by lia.
      exact Hcut. }
  exists (note_pulse (elapsed (S n) / 64) (advance 0 1 (advance (S n) (S n) b2))).
  split.
  - unfold bit_measure, bind, on_board, measure_high.
    cbn [board app trace fst snd DWT_CYCCNT].
    replace (uint32 (cyccnt (dwt_enable b1) (cyc_reads (dwt_enable b1))))
      with start_cycles by (unfold start_cycles; now rewrite E2, E6).
    change (mkBoard (pin_level (dwt_enable b1)) (cyccnt (dwt_enable b1))
                    (pin_reads (dwt_enable b1)) (S (cyc_reads (dwt_enable b1)))
                    (cyccntena (dwt_enable b1)) (hal_calls (dwt_enable b1))
                    (pulses (dwt_enable b1))) with b2.
    rewrite Hm. cbn [board app trace fst snd DWT_CYCCNT advance cyccnt cyc_reads].
    unfold b2. cbn [advance cyccnt cyc_reads]. rewrite E2, E6.
    replace (S n + (1 + cyc_reads b1))%nat with (cyc_reads b1 + 1 + S n)%nat by lia.
    fold (elapsed (S n)). unfold ret. do 2 f_equal.
    unfold note_pulse, advance. cbn. f_equal; [congruence | rewrite E6; lia].
  - split.
    + unfold b2. cbn. rewrite E3. reflexivity.
    + unfold b2. cbn. rewrite E5. lia.
Qed.

Lemma bit_measure_no_return fuel s v site s' :
  bit_measure fuel s <> Returned v site s'.
Proof.
  intros E.
  refine (wp_returned _ (fun _ _ => True) (fun _ _ _ => False) _ _ _ _ _ E).
  apply wp_bit_measure. auto.
Qed.

Lemma wait_while_run level s :
  wait_while level s
  = Continue (fst (wait_loop level 200 0 (board s)))
             (mkSt (snd (wait_loop level 200 0 (board s))) (app s) (trace s)).
Proof.
  unfold wait_while, on_board. destruct (wait_loop level 200 0 (board s)). reflexivity.
Qed.

(** C10.  Take an iteration of the data loop whose bit start was seen
    (the wait ended below 200 polls), and let the line stay high through
    the polls of the measurement loop until the elapsed time first exceeds
    200 microseconds, at the (n+1)-th poll.  If the counter value read
    after the loop is not, modulo 2^32, behind the one that triggered the
    cutoff, then with fuel above n both reads finish the iteration without
    returning: the measured duration exceeds 200 (hence 40), the bit is
    stored as 1, and the loop was left by the cutoff after n + 1 polls.
    Moreover an iteration returns from the function only when the
    bit-start wait has reached 200 polls. *)
Theorem C10_cutoff_is_not_a_failure :
  (forall (fuel n : nat) (i : Z) (data : list Z) (bits_read : Z) (s : St),
      let b1 := snd (wait_loop false 200 0 (board s)) in
      let start_cycles := uint32 (cyccnt b1 (cyc_reads b1)) in
      let elapsed k :=
        uint32 (uint32 (cyccnt b1 (cyc_reads b1 + 1 + k)) - start_cycles) in
      0 <= i < 40 ->
      fst (wait_loop false 200 0 (board s)) < 200 ->
      (forall k, (k <= n)%nat -> pin_level b1 (pin_reads b1 + k) = true) ->
      (forall k, (k < n)%nat -> elapsed k / 64 <= 200) ->
      elapsed n / 64 > 200 ->
      elapsed n <= elapsed (S n) ->
      (n < fuel)%nat ->
      exists d,
        d > 200 /\ (d >? 40) = true
        /\ (exists s',
               read_bit fuel i data s
               = Continue (or_assign data (i / 8) (7 - i mod 8)) s'
               /\ pulses (board s') = pulses (board s) ++ [d]
               /\ pin_reads (board s') = (pin_reads b1 + S n)%nat)
        /\ (exists s',
               debug_read_bit fuel i (data, bits_read) s
               = Continue (or_assign data (i / 8) (7 - i mod 8),
                           uint8 (bits_read + 1)) s'
               /\ pulses (board s') = pulses (board s) ++ [d]
               /\ pin_reads (board s') = (pin_reads b1 + S n)%nat))
  /\ (forall fuel i data s v site s',
         read_bit fuel i data s = Returned v site s' ->
         fst (wait_loop false 200 0 (board s)) >= 200
         /\ v = false /\ site = BitTimeout i)
  /\ (forall fuel i data bits_read s v site s',
         debug_read_bit fuel i (data, bits_read) s = Returned v site s' ->
         fst (wait_loop false 200 0 (board s)) >= 200
         /\ v = false /\ site = BitTimeout i).
Proof.
  split; [|split].
  - intros fuel n i data bits_read s b1 start_cycles elapsed Hi Hstart Hpin Hlow
           Hcut Hmono Hf.
    destruct (bit_measure_cutoff fuel n b1 (app s) (trace s) Hpin Hlow Hcut Hf)
      as (b' & Hm & Hpul & Hreads).
    fold start_cycles in Hm, Hpul. fold elapsed in Hm, Hpul.
    assert (Hd : elapsed (S n) / 64 > 200).
    { pose proof (Z.div_le_mono _ _ 64 ltac:(lia) Hmono). lia. }
    assert (Hd40 : (elapsed (S n) / 64 >? 40) = true)
      by (apply Z.gtb_gt; lia).
    assert (Hge : (fst (wait_loop false 200 0 (board s)) >=? 200) = false)
      by (rewrite Z.geb_leb; apply Z.leb_gt; lia).
    assert (Hp1 : pulses b1 = pulses (board s))
      by (apply polled_pulses, wait_loop_polled).
    pose proof Hd40 as Hd40'. cbv beta delta [elapsed] in Hd40'.
    exists (elapsed (S n) / 64). split; [exact Hd|]. split; [exact Hd40|]. split.
    + exists (mkSt b' (app s) (trace s)). split.
      * rewrite read_bit_unfold. unfold bind at 1. rewrite wait_while_run, Hge.
        fold b1. unfold bind. rewrite Hm. cbv beta iota. rewrite ?Hd40'.
        rewrite byte_idx_eq, bit_idx_eq by lia. reflexivity.
      * cbn [board]. rewrite Hpul, Hp1. split; [reflexivity | exact Hreads].
    + exists (log_all (bit_line i (elapsed (S n) / 64)) (mkSt b' (app s) (trace s))).
      split.
      * rewrite debug_read_bit_unfold. unfold bind at 1. rewrite wait_while_run, Hge.
        fold b1. unfold bind. rewrite Hm. cbv beta iota. rewrite ?Hd40'.
        rewrite byte_idx_eq, bit_idx_eq by lia. reflexivity.
      * rewrite !board_log_all. cbn [board]. rewrite Hpul, Hp1.
        split; [reflexivity | exact Hreads].
  - intros fuel i data s v site s' H. rewrite read_bit_unfold in H.
    unfold bind at 1 in H. rewrite wait_while_run in H.
    destruct (Z.geb_spec (fst (wait_loop false 200 0 (board s))) 200) as [G|G].
    + split; [lia|].
      unfold bind, FURI_CRITICAL_EXIT, notification_message, call, on_board,
        return_ in H.
      injection H as <- <- _. auto.
    + exfalso. unfold bind in H.
      destruct (bit_measure fuel _) as [a s1|v1 site1 s1|] eqn:E;
        [|exact (bit_measure_no_return _ _ _ _ _ E)|discriminate H].
      destruct (a >? 40); discriminate H.
  - intros fuel i data bits_read s v site s' H. rewrite debug_read_bit_unfold in H.
    unfold bind at 1 in H. rewrite wait_while_run in H.
    destruct (Z.geb_spec (fst (wait_loop false 200 0 (board s))) 200) as [G|G].
    + split; [lia|].
      unfold bind, FURI_CRITICAL_EXIT, notification_message, call, on_board,
        log_append, return_ in H.
      injection H as <- <- _. auto.
    + exfalso. unfold bind in H.
      destruct (bit_measure fuel _) as [a s1|v1 site1 s1|] eqn:E;
        [|exact (bit_measure_no_return _ _ _ _ _ E)|discriminate H].
      discriminate H.
Qed.

(** A line stuck high while the counter runs: 100, 201 and 202
    microseconds after the start of the measurement. *)
Definition stuck_high_board : Board :=
  board_of [] true [0; 64 * 100; 64 * 201; 64 * 202].

Lemma C10_cutoff_is_not_a_failure_witness :
  exists d,
    d > 200 /\ (d >? 40) = true
    /\ (exists s',
           read_bit 2 0 zero_frame (start stuck_high_board)
           = Continue (or_assign zero_frame (0 / 8) (7 - 0 mod 8)) s'
           /\ pulses (board s') = pulses (board (start stuck_high_board)) ++ [d]
           /\ pin_reads (board s')
              = (pin_reads (snd (wait_loop false 200 0 (board (start stuck_high_board))))
                 + 2)%nat)
    /\ (exists s',
           debug_read_bit 2 0 (zero_frame, 0) (start stuck_high_board)
           = Continue (or_assign zero_frame (0 / 8) (7 - 0 mod 8), uint8 (0 + 1)) s'
           /\ pulses (board s') = pulses (board (start stuck_high_board)) ++ [d]
           /\ pin_reads (board s')
              = (pin_reads (snd (wait_loop false 200 0 (board (start stuck_high_board))))
                 + 2)%nat).
Proof.
  apply (proj1 C10_cutoff_is_not_a_failure 2%nat 1%nat 0 zero_frame 0
               (start stuck_high_board)).
  - lia.
  - vm_compute. reflexivity.
  - intros k _. destruct k; reflexivity.
  - intros k Hk. assert (k = 0%nat) by lia. subst k. vm_compute. discriminate.
  - vm_compute. reflexivity.
  - vm_compute. discriminate.
  - lia.
Defined.

(** The same run, computed: the bit is stored as 1 with a measured
    duration of 202 microseconds. *)
Example stuck_high_bit :
  bit_result id (read_bit 2 0 zero_frame (start stuck_high_board))
  = Some ([128; 0; 0; 0; 0], [202]).
Proof. vm_compute. reflexivity. Qed.

(** ** Every frame can be read *)

(** The simulated sensor of [sensor_board] delivers any frame, so the
    hypotheses "the frame phase has assembled [data]" of the theorems
    above are met for every 5-byte frame. *)

Lemma wait_loop_S level n timeout b :
  wait_loop level (S n) timeout b
  = if Bool.eqb (pin_level b (pin_reads b)) level && (timeout <? 200)
    then wait_loop level n (uint32 (timeout + 1))
                   (hal (Hal_delay_us 1) (advance 1 0 b))
    else (timeout, advance 1 0 b).
Proof. reflexivity. Qed.

Lemma wait_loop_now level b :
  pin_level b (pin_reads b) = negb level ->
  wait_loop level 200 0 b = (0, advance 1 0 b).
Proof.
  intros H. change 200%nat with (S 199). rewrite wait_loop_S, H.
  destruct level; reflexivity.
Qed.

Definition pulse_of (frame : list Z) (i : nat) : Z :=
  if frame_bit frame i then 70 else 27.

(** The board of the simulated sensor when bit [i] is about to start. *)
Record at_bit (lead : list bool) (frame : list Z) (i : nat) (b : Board) : Prop := {
  at_pin : pin_level b = pin_level (sensor_board lead frame);
  at_cyccnt : cyccnt b = cyccnt (sensor_board lead frame);
  at_pin_reads : pin_reads b = (List.length lead + 3 + 2 * i)%nat;
  at_cyc_reads : cyc_reads b = (2 * i)%nat
}.

Lemma sensor_pin lead frame j :
  pin_level (sensor_board lead frame) (List.length lead + 3 + j) = Nat.odd (3 + j).
Proof.
  cbn [sensor_board pin_level]. rewrite nth_overflow.
  - f_equal. lia.
  - rewrite length_app. simpl. lia.
Qed.

Lemma sensor_cyccnt_even lead frame i :
  cyccnt (sensor_board lead frame) (2 * i) = 0.
Proof.
  cbn [sensor_board cyccnt].
  replace (Nat.even (2 * i)) with true; [reflexivity|].
  symmetry. apply Nat.even_spec. exists i. reflexivity.
Qed.

Lemma sensor_cyccnt_odd lead frame i :
  cyccnt (sensor_board lead frame) (1 + 2 * i) = 64 * pulse_of frame i.
Proof.
  cbn [sensor_board cyccnt].
  replace (Nat.even (1 + 2 * i)) with false.
  - replace ((1 + 2 * i) / 2)%nat with i.
    + unfold pulse_of. destruct (frame_bit frame i); reflexivity.
    + symmetry. rewrite Nat.add_comm, Nat.mul_comm, Nat.div_add_l by lia.
      simpl. lia.
  - symmetry. rewrite <- Nat.negb_odd. apply negb_false_iff.
    apply Nat.odd_spec. exists i. lia.
Qed.

Lemma odd_bit_start i : Nat.odd (3 + 2 * i) = true.
Proof. apply Nat.odd_spec. exists (S i). lia. Qed.

Lemma odd_bit_end i : Nat.odd (3 + (1 + 2 * i)) = false.
Proof.
  rewrite <- Nat.negb_even. apply negb_false_iff.
  apply Nat.even_spec. exists (2 + i)%nat. lia.
Qed.

Lemma pulse_of_value frame i :
  uint32 (uint32 (64 * pulse_of frame i) - uint32 0) / 64 = pulse_of frame i.
Proof. unfold pulse_of. destruct (frame_bit frame i); reflexivity. Qed.

(** One bit on the simulated sensor: the wait ends at the first poll, the
    measurement at its first poll, and the pulse is 70 or 27. *)
Lemma sensor_bit lead frame i b a tr :
  at_bit lead frame i b ->
  exists b',
    wait_while false (mkSt b a tr) = Continue 0 (mkSt (advance 1 0 b) a tr)
    /\ bit_measure 1 (mkSt (advance 1 0 b) a tr)
       = Continue (pulse_of frame i) (mkSt b' a tr)
    /\ at_bit lead frame (S i) b'
    /\ pulses b' = pulses b ++ [pulse_of frame i].
Proof.
  intros [Hp Hc Hpr Hcr].
  set (b1 := advance 1 0 b).
  assert (F1 : pin_level b1 = pin_level (sensor_board lead frame)) by exact Hp.
  assert (F2 : cyccnt b1 = cyccnt (sensor_board lead frame)) by exact Hc.
  assert (F3 : pin_reads b1 = (List.length lead + 3 + (1 + 2 * i))%nat)
    by (unfold b1; cbn [advance pin_reads]; lia).
  assert (F4 : cyc_reads b1 = (2 * i)%nat) by exact Hcr.
  destruct (dwt_enable_frame b1) as (E1 & E2 & E3 & E4 & E5 & E6).
  set (b2 := advance 0 1 (dwt_enable b1)).
  assert (G1 : pin_level b2 = pin_level (sensor_board lead frame))
    by (unfold b2; cbn [advance pin_level]; congruence).
  assert (G2 : cyccnt b2 = cyccnt (sensor_board lead frame))
    by (unfold b2; cbn [advance cyccnt]; congruence).
  assert (G3 : pin_reads b2 = (List.length lead + 3 + (1 + 2 * i))%nat)
    by (unfold b2; cbn [advance pin_reads]; lia).
  assert (G4 : cyc_reads b2 = (1 + 2 * i)%nat)
    by (unfold b2; cbn [advance cyc_reads]; lia).
  assert (Hstart : uint32 (cyccnt (dwt_enable b1) (cyc_reads (dwt_enable b1)))
                   = uint32 0)
    by (rewrite E2, E6, F2, F4; now rewrite sensor_cyccnt_even).
  assert (Hm : measure_loop 1 (uint32 0) b2 = Some (advance 1 0 b2)).
  { rewrite measure_loop_S, G1, G3, sensor_pin, odd_bit_end. reflexivity. }
  assert (Hend : uint32 (cyccnt (advance 1 0 b2) (cyc_reads (advance 1 0 b2)))
                 = uint32 (64 * pulse_of frame i)).
  { cbn [advance cyccnt cyc_reads]. rewrite Nat.add_0_l, G2, G4.
    now rewrite sensor_cyccnt_odd. }
  exists (note_pulse (pulse_of frame i) (advance 0 1 (advance 1 0 b2))).
  split; [|split; [|split]].
  - rewrite wait_while_run. cbn [board app trace].
    rewrite wait_loop_now; [reflexivity|].
    rewrite Hp, Hpr, sensor_pin. apply odd_bit_start.
  - unfold bit_measure, bind, on_board, measure_high.
    cbn [board app trace fst snd DWT_CYCCNT].
    rewrite Hstart.
    change (mkBoard (pin_level (dwt_enable b1)) (cyccnt (dwt_enable b1))
                    (pin_reads (dwt_enable b1)) (S (cyc_reads (dwt_enable b1)))
                    (cyccntena (dwt_enable b1)) (hal_calls (dwt_enable b1))
                    (pulses (dwt_enable b1))) with b2.
    rewrite Hm. cbn [board app trace fst snd DWT_CYCCNT].
    rewrite Hend, pulse_of_value. reflexivity.
  - constructor; cbn [note_pulse advance pin_level cyccnt pin_reads cyc_reads];
      auto; lia.
  - cbn [note_pulse advance pulses]. unfold b2. cbn [advance pulses].
    rewrite E3. reflexivity.
Qed.

Lemma pulse_of_bit frame i : (pulse_of frame i >? 40) = frame_bit frame i.
Proof. unfold pulse_of. destruct (frame_bit frame i); reflexivity. Qed.

Lemma frame_bit_data_bit frame j : frame_bit frame j = data_bit frame (Z.of_nat j).
Proof.
  unfold frame_bit, data_bit, byte_at.
  change 8 with (Z.of_nat 8).
  rewrite <- Nat2Z.inj_div, <- Nat2Z.inj_mod, Nat2Z.id.
  f_equal. pose proof (Nat.mod_upper_bound j 8 ltac:(lia)). lia.
Qed.

Lemma sensor_read_bits lead frame n :
  forall k data b a tr,
  (k + n <= 40)%nat -> frame_ok data -> at_bit lead frame k b ->
  exists data' b',
    read_bits 1 (map Z.of_nat (seq k n)) data (mkSt b a tr)
    = Continue data' (mkSt b' a tr)
    /\ at_bit lead frame (k + n) b'
    /\ frame_ok data'
    /\ packed k (map (pulse_of frame) (seq k n)) data data'.
Proof.
  induction n as [|n IH]; intros k data b a tr Hk Hok Hat.
  - exists data, b. rewrite Nat.add_0_r.
    split; [reflexivity|]. split; [exact Hat|]. split; [exact Hok|].
    apply packed_nil.
  - destruct (sensor_bit lead frame k b a tr Hat) as (b1 & Hw & Hm & Hat1 & _).
    set (data1 := if pulse_of frame k >? 40
                  then or_assign data (Z.of_nat k / 8) (7 - Z.of_nat k mod 8)
                  else data).
    assert (Hok1 : frame_ok data1)
      by (unfold data1; destruct (_ >? 40); auto using or_assign_ok).
    destruct (IH (S k) data1 b1 a tr ltac:(lia) Hok1 Hat1)
      as (data' & b' & Hr & Hat' & Hok' & Hp).
    exists data', b'. split; [|split; [|split]]; auto.
    + cbn [seq map read_bits]. unfold bind at 1. rewrite read_bit_unfold.
      unfold bind at 1. rewrite Hw. cbv beta iota.
      change (0 >=? 200) with false. cbv iota.
      unfold bind at 1. rewrite Hm. cbv beta iota.
      rewrite byte_idx_eq, bit_idx_eq by lia. fold data1.
      replace ((if pulse_of frame k >? 40
                then ret (or_assign data (Z.of_nat k / 8) (7 - Z.of_nat k mod 8))
                else ret data) (mkSt b1 a tr))
        with (Continue (A:=list Z) data1 (mkSt b1 a tr))
        by (unfold data1; destruct (_ >? 40); reflexivity).
      exact Hr.
    + replace (k + S n)%nat with (S k + n)%nat by lia. exact Hat'.
    + cbn [seq map]. apply packed_cons; auto. lia.
Qed.

Lemma sensor_debug_read_bits lead frame n :
  forall k data bits_read s,
  (k + n <= 40)%nat -> frame_ok data -> at_bit lead frame k (board s) ->
  exists data' bits_read' s',
    debug_read_bits 1 (map Z.of_nat (seq k n)) (data, bits_read) s
    = Continue (data', bits_read') s'
    /\ at_bit lead frame (k + n) (board s')
    /\ frame_ok data'
    /\ packed k (map (pulse_of frame) (seq k n)) data data'.
Proof.
  induction n as [|n IH]; intros k data bits_read s Hk Hok Hat.
  - exists data, bits_read, s. rewrite Nat.add_0_r.
    split; [reflexivity|]. split; [exact Hat|]. split; [exact Hok|].
    apply packed_nil.
  - destruct s as [b a tr]. cbn [board] in Hat.
    destruct (sensor_bit lead frame k b a tr Hat) as (b1 & Hw & Hm & Hat1 & _).
    set (data1 := if pulse_of frame k >? 40
                  then or_assign data (Z.of_nat k / 8) (7 - Z.of_nat k mod 8)
                  else data).
    assert (Hok1 : frame_ok data1)
      by (unfold data1; destruct (_ >? 40); auto using or_assign_ok).
    set (s1 := log_all (bit_line (Z.of_nat k) (pulse_of frame k)) (mkSt b1 a tr)).
    assert (Hat1' : at_bit lead frame (S k) (board s1))
      by (unfold s1; rewrite board_log_all; exact Hat1).
    destruct (IH (S k) data1 (uint8 (bits_read + 1)) s1 ltac:(lia) Hok1 Hat1')
      as (data' & bits' & s' & Hr & Hat' & Hok' & Hp).
    exists data', bits', s'. split; [|split; [|split]]; auto.
    + cbn [seq map debug_read_bits]. unfold bind at 1.
      rewrite debug_read_bit_unfold.
      unfold bind at 1. rewrite Hw. cbv beta iota.
      change (0 >=? 200) with false. cbv iota.
      unfold bind at 1. rewrite Hm. cbv beta iota.
      unfold bind at 1. fold s1. unfold ret.
      rewrite byte_idx_eq, bit_idx_eq by lia. fold data1. exact Hr.
    + replace (k + S n)%nat with (S k + n)%nat by lia. exact Hat'.
    + cbn [seq map]. apply packed_cons; auto. lia.
Qed.

(** Two well-formed frames with the same 40 bits are the same frame. *)
Lemma byte_ext x y :
  0 <= x < 256 -> 0 <= y < 256 ->
  (forall r, 0 <= r < 8 -> Z.testbit x r = Z.testbit y r) -> x = y.
Proof.
  intros Hx Hy H. apply Z.bits_inj'. intros r Hr.
  destruct (Z.lt_ge_cases r 8) as [Hlt|Hge].
  - apply H. lia.
  - rewrite <- (Z.mod_small x (2 ^ 8)), <- (Z.mod_small y (2 ^ 8))
      by (change (2 ^ 8) with 256; lia).
    now rewrite !Z.mod_pow2_bits_high by lia.
Qed.

Lemma frame_ext d1 d2 :
  frame_ok d1 -> frame_ok d2 ->
  (forall j, (j < 40)%nat -> data_bit d1 (Z.of_nat j) = data_bit d2 (Z.of_nat j)) ->
  d1 = d2.
Proof.
  intros [L1 B1] [L2 B2] H.
  destruct d1 as [|a0 [|a1 [|a2 [|a3 [|a4 [|]]]]]]; try discriminate L1.
  destruct d2 as [|c0 [|c1 [|c2 [|c3 [|c4 [|]]]]]]; try discriminate L2.
  repeat match goal with
         | HB : Forall _ (_ :: _) |- _ => inversion_clear HB
         end.
  assert (K : forall q r, (q < 5)%nat -> 0 <= r < 8 ->
            Z.testbit (nth q [a0; a1; a2; a3; a4] 0) r
            = Z.testbit (nth q [c0; c1; c2; c3; c4] 0) r).
  { intros q r Hq Hr.
    specialize (H (8 * q + Z.to_nat (7 - r))%nat ltac:(lia)).
    unfold data_bit, byte_at in H.
    replace (Z.of_nat (8 * q + Z.to_nat (7 - r))) with (Z.of_nat q * 8 + (7 - r))
      in H by lia.
    rewrite Z.div_add_l, Z.div_small, Z.add_0_r in H by lia.
    rewrite Z.add_comm, Z.mod_add, Z.mod_small in H by lia.
    rewrite Nat2Z.id in H. replace (7 - (7 - r)) with r in H by lia. exact H. }
  f_equal; [|f_equal; [|f_equal; [|f_equal; [|f_equal]]]];
    apply byte_ext; auto; intros r Hr.
  - exact (K 0%nat r ltac:(lia) Hr).
  - exact (K 1%nat r ltac:(lia) Hr).
  - exact (K 2%nat r ltac:(lia) Hr).
  - exact (K 3%nat r ltac:(lia) Hr).
  - exact (K 4%nat r ltac:(lia) Hr).
Qed.

Lemma packed_from_sensor frame data :
  frame_ok frame -> frame_ok data ->
  packed 0 (map (pulse_of frame) (seq 0 40)) zero_frame data ->
  data = frame.
Proof.
  intros Hf Hd Hp. apply frame_ext; auto. intros j Hj.
  rewrite (Hp j Hj), zero_frame_bit, orb_false_r.
  rewrite length_map, length_seq, Nat.sub_0_r. cbn [Nat.leb andb].
  replace (j <? 0 + 40)%nat with true by (symmetry; apply Nat.ltb_lt; lia).
  cbn [andb].
  rewrite (nth_indep _ 0 (pulse_of frame 0)) by (rewrite length_map, length_seq; lia).
  rewrite map_nth, seq_nth by lia. cbn [Nat.add].
  rewrite pulse_of_bit. apply frame_bit_data_bit.
Qed.

(** [twp] is [wp] for runs that are also shown to need no more fuel. *)
Definition twp {A} (m : M A) (Q : A -> St -> Prop) (R : bool -> Site -> St -> Prop)
  : St -> Prop :=
  fun s => match m s with
           | Continue a s' => Q a s'
           | Returned v site s' => R v site s'
           | OutOfFuel => False
           end.

Lemma twp_bind {A B} (m : M A) (f : A -> M B) Q R s :
  twp (bind m f) Q R s = twp m (fun a s' => twp (f a) Q R s') R s.
Proof. unfold twp, bind. destruct (m s); reflexivity. Qed.

Lemma twp_step_log {A} e (k : M A) Q R b es s0 :
  twp k Q R (with_board b (log_all (es ++ [e]) s0)) ->
  twp (log_append e ;; k) Q R (with_board b (log_all es s0)).
Proof.
  intros H. rewrite twp_bind. unfold twp at 1, log_append.
  rewrite log_state_with_board. now rewrite log_all_app in H.
Qed.

Lemma twp_step_call {A} c (k : M A) Q R b es s0 :
  twp k Q R (with_board (hal c b) (log_all es s0)) ->
  twp (call c ;; k) Q R (with_board b (log_all es s0)).
Proof. intros H. rewrite twp_bind. exact H. Qed.

Lemma twp_step_clear {A} (k : M A) Q R s :
  twp k Q R (with_board (board s) (log_all [] (cleared s))) ->
  twp (log_clear ;; k) Q R s.
Proof. intros H. rewrite twp_bind. exact H. Qed.

Lemma twp_step_pin {A} (k : bool -> M A) Q R b es s0 :
  twp (k (pin_level b (pin_reads b))) Q R
      (with_board (advance 1 0 b) (log_all es s0)) ->
  twp (level <- on_board furi_hal_gpio_read ;; k level) Q R
      (with_board b (log_all es s0)).
Proof. intros H. rewrite twp_bind. exact H. Qed.

Lemma twp_step_wait_now {A} level (k : Z -> M A) Q R b es s0 :
  pin_level b (pin_reads b) = negb level ->
  twp (k 0) Q R (with_board (advance 1 0 b) (log_all es s0)) ->
  twp (t <- wait_while level ;; k t) Q R (with_board b (log_all es s0)).
Proof.
  intros Hp H. rewrite twp_bind. unfold twp at 1. rewrite wait_while_run.
  cbn [with_board board]. rewrite (wait_loop_now level b Hp). exact H.
Qed.

Lemma twp_continue {A} (m : M A) (P : A -> Prop) s :
  twp m (fun a _ => P a) (fun _ _ _ => False) s ->
  exists a s', m s = Continue a s' /\ P a.
Proof. unfold twp. destruct (m s); [eauto | contradiction | contradiction]. Qed.

Ltac run_step :=
  lazymatch goal with
  | |- twp (bind (log_append _) _) _ _ _ => apply twp_step_log
  | |- twp (bind (call _) _) _ _ _ => apply twp_step_call
  | |- twp (bind (on_board furi_hal_gpio_read) _) _ _ _ => apply twp_step_pin
  | |- twp (bind (wait_while _) _) _ _ _ =>
      apply twp_step_wait_now;
      [reflexivity | change (0 >=? 200) with false; cbv iota]
  end.

(** The plain read of the simulated sensor assembles the frame it sends. *)
Lemma sensor_board_delivers_plain frame :
  frame_ok frame ->
  exists s1, sensor_read_frame 1 (start (sensor_board [] frame)) = Continue frame s1.
Proof.
  intros Hf.
  destruct (twp_continue (sensor_read_frame 1) (fun data => data = frame)
                         (start (sensor_board [] frame)))
    as (data & s1 & E & ->); [|eauto].
  unfold sensor_read_frame.
  unfold notification_message, furi_hal_gpio_init, furi_hal_gpio_write,
    furi_delay_ms, furi_delay_us, FURI_CRITICAL_ENTER, FURI_CRITICAL_EXIT.
  change (start (sensor_board [] frame))
    with (with_board (sensor_board [] frame)
                     (log_all [] (start (sensor_board [] frame)))).
  repeat run_step. fold zero_frame.
  rewrite twp_bind. unfold twp at 1.
  match goal with
  | |- context [with_board ?b3 ?s0] =>
      destruct (sensor_read_bits [] frame 40 0 zero_frame b3 (app s0) (trace s0))
        as (data & b' & Hr & _ & Hok & Hp);
        [lia | apply zero_frame_ok | constructor; reflexivity |]
  end.
  apply (packed_from_sensor frame data Hf Hok) in Hp. subst data.
  change bit_indices with (map Z.of_nat (seq 0 40)).
  unfold with_board at 1. rewrite Hr. reflexivity.
Qed.

(** So does the debug read. *)
Lemma sensor_board_delivers_debug frame :
  frame_ok frame ->
  exists s1, debug_read_frame 1 (start (sensor_board [true] frame)) = Continue frame s1.
Proof.
  intros Hf.
  destruct (twp_continue (debug_read_frame 1) (fun data => data = frame)
                         (start (sensor_board [true] frame)))
    as (data & s1 & E & ->); [|eauto].
  unfold debug_read_frame.
  unfold notification_message, furi_hal_gpio_init, furi_hal_gpio_write,
    furi_delay_ms, furi_delay_us, FURI_CRITICAL_ENTER, FURI_CRITICAL_EXIT, log_msg.
  apply twp_step_clear.
  repeat run_step. fold zero_frame.
  rewrite twp_bind. unfold twp at 1.
  match goal with
  | |- context [debug_read_bits 1 bit_indices (zero_frame, 0) ?s3] =>
      destruct (sensor_debug_read_bits [true] frame 40 0 zero_frame 0 s3)
        as (data & bits' & s' & Hr & _ & Hok & Hp);
        [lia | apply zero_frame_ok | constructor; reflexivity |]
  end.
  apply (packed_from_sensor frame data Hf Hok) in Hp. subst data.
  change bit_indices with (map Z.of_nat (seq 0 40)).
  rewrite Hr. destruct s' as [b' a' t'].
  change (mkSt b' a' t') with (with_board b' (log_all [] (mkSt b' a' t'))).
  repeat run_step. reflexivity.
Qed.

(** Every well-formed frame is assembled by some run of either read. *)
Theorem sensor_board_delivers (debug : bool) (frame : list Z) :
  frame_ok frame ->
  exists s1,
    read_frame debug 1 (start (sensor_board (if debug then [true] else []) frame))
    = Continue frame s1.
Proof.
  intros Hf. destruct debug.
  - rewrite read_frame_debug. now apply sensor_board_delivers_debug.
  - rewrite read_frame_plain. now apply sensor_board_delivers_plain.
Qed.

(** The checksum law end to end: whatever five bytes the simulated sensor
    sends, either read returns, and it returns from the checksum-mismatch
    return exactly when the fifth byte is not the sum of the other four
    modulo 256. *)
Theorem checksum_law_on_sensor (debug : bool) (h hf t tf c : Z) :
  frame_ok [h; hf; t; tf; c] ->
  exists v site s',
    read debug 1 (start (sensor_board (if debug then [true] else []) [h; hf; t; tf; c]))
    = Returned v site s'
    /\ (site = ChecksumMismatch <-> c <> (h + hf + t + tf) mod 256).
Proof.
  intros Hf. destruct (sensor_board_delivers debug _ Hf) as (s1 & E).
  rewrite (read_after_frame _ _ _ _ _ E).
  pose proof (validate_outcome debug [h; hf; t; tf; c] s1) as W. unfold wp in W.
  destruct (validate_returns debug [h; hf; t; tf; c] s1) as (v & site & s' & HF).
  rewrite HF in W. exists v, site, s'. split; [exact HF|].
  assert (Hc : frame_checksum [h; hf; t; tf; c] = (h + hf + t + tf) mod 256)
    by reflexivity.
  assert (H4 : byte_at [h; hf; t; tf; c] 4 = c) by reflexivity.
  clear HF E. destruct W as [s' N _ _ _ | s' N _ _ _]; rewrite Hc, H4 in N.
  - split; [intros _; congruence | reflexivity].
  - split; [|intros; congruence].
    unfold verdict. destruct (out_of_range _ _); discriminate.
Qed.
